(** * UserTable: a shallow embedding of [src/src/App.tsx]

    The repository holds one stateful React component, [UserTable], mounted
    by a routing shell.  The component fetches a list of user records,
    filters it by a search term, shows it five rows at a time and keeps a
    list of selected ids.

    The embedding follows the component line by line:
    - the seven [useState] cells become the fields of the record [State];
    - every handler and effect body becomes a function [State -> State];
    - the [try / catch / finally] of [fetchUsers] becomes a computation in a
      sum type, the left side carrying the thrown value;
    - the JSX guards ([if (loading)], [if (error)], [disabled=...],
      [filteredUsers.length > 0 && ...]) become the boolean [enabled], which
      says which events the rendered page can deliver;
    - the states the component can be in are the inductive [reachable].

    JavaScript values are modelled as follows.  Numbers that the component
    only ever uses as integers (ids, page numbers, HTTP status codes, array
    indices) are [Z].  Strings are [string]: sequences of code units.
    Arrays are [list].

    [String.prototype.toLowerCase] follows the Unicode case tables, looks at
    the context of a letter and may change the length of a string; the
    tables are not part of this repository.  The component is therefore
    modelled for an arbitrary function [toLowerCase], a variable of the
    section [Component]; where a proof needs a fact about it (the empty
    string is its own lower-case form) the fact is a stated hypothesis.
    The sample runs at the end instantiate it with [asciiLowerCase], which
    agrees with it on the ASCII sample data. *)

From Stdlib Require Import ZArith String Ascii List Bool Lia DecimalString.
From stdpp Require Import base list gmap sets strings.

Local Open Scope Z_scope.

(** ** JavaScript primitives used by the component *)

Module JsString.

(** Lower-casing of ASCII text, used for the sample runs only: [A]..[Z]
    move to [a]..[z], every other code unit is kept. *)
Definition asciiLowerUnit (c : ascii) : ascii :=
  let n := nat_of_ascii c in
  if Nat.leb 65 n && Nat.leb n 90 then ascii_of_nat (n + 32) else c.

Fixpoint asciiLowerCase (s : string) : string :=
  match s with
  | EmptyString => EmptyString
  | String c rest => String (asciiLowerUnit c) (asciiLowerCase rest)
  end.

(** [s.startsWith(t)] *)
Fixpoint startsWith (s t : string) : bool :=
  match t, s with
  | EmptyString, _ => true
  | String _ _, EmptyString => false
  | String b t', String a s' => Ascii.eqb a b && startsWith s' t'
  end.

(** [s.includes(t)]: [t] occurs in [s] at some position. *)
Fixpoint includes (s t : string) : bool :=
  startsWith s t ||
  match s with
  | EmptyString => false
  | String _ s' => includes s' t
  end.

(** The meaning of "is a substring of", independent of the search loop. *)
Definition isSubstring (t s : string) : Prop :=
  ∃ before after : string, s = before +:+ t +:+ after.

(** Truthiness of a string in a condition: only the empty string is falsy. *)
Definition truthy (s : string) : bool :=
  match s with EmptyString => false | String _ _ => true end.

(** [`${n}`] for an integer [n]. *)
Definition ofNumber (n : Z) : string := NilZero.string_of_int (Z.to_int n).

End JsString.

Module JsArray.

(** [arr.includes(x)] on an array of integers. *)
Definition includes (arr : list Z) (x : Z) : bool := existsb (Z.eqb x) arr.

(** [arr.slice(start, end)] with the clamping of the language standard:
    a negative index counts from the end, an index past the end is the
    length, and an empty or inverted range gives the empty array. *)
Definition slice {A : Type} (arr : list A) (start finish : Z) : list A :=
  let len := Z.of_nat (length arr) in
  let k := if start <? 0 then Z.max (len + start) 0 else Z.min start len in
  let final := if finish <? 0 then Z.max (len + finish) 0 else Z.min finish len in
  take (Z.to_nat (final - k)) (drop (Z.to_nat k) arr).

(** [[...new Set(arr)]]: a [Set] remembers insertion order, so the
    result keeps every value at the place of its first occurrence. *)
Definition addOnce (seen : list Z) (x : Z) : list Z :=
  if includes seen x then seen else seen ++ [x].
Definition uniq (arr : list Z) : list Z := fold_left addOnce arr [].

End JsArray.

(** [Math.ceil(a / b)] for integers [a] and a positive integer [b]. *)
Definition Math_ceil_div (a b : Z) : Z := - ((- a) / b).

(** ** Data model (the interfaces at the top of the component file) *)

Record LoginInfo := mkLoginInfo {
  uuid : string;
  username : string;
  password : string;
  md5 : string;
  sha1 : string;
  registered : string
}.

(** The fields [address] and [company] of the source interface are never
    read by the component and are left out. *)
Record User := mkUser {
  id : Z;
  firstname : string;
  lastname : string;
  email : string;
  birthDate : string;
  login : LoginInfo;
  phone : string;
  website : string
}.

(** The [useState] cells of [UserTable]. *)
Record State := mkState {
  users : list User;
  filteredUsers : list User;
  selectedUsers : list Z;
  searchTerm : string;
  currentPage : Z;
  loading : bool;
  error : option string
}.

Definition usersPerPage : Z := 5.

(** State at mount: the initial values passed to [useState]. *)
Definition initialState : State :=
  mkState [] [] [] EmptyString 1 true None.

Definition setUsers (v : list User) (s : State) : State :=
  mkState v (filteredUsers s) (selectedUsers s) (searchTerm s)
          (currentPage s) (loading s) (error s).
Definition setFilteredUsers (v : list User) (s : State) : State :=
  mkState (users s) v (selectedUsers s) (searchTerm s)
          (currentPage s) (loading s) (error s).
Definition setSelectedUsers (v : list Z) (s : State) : State :=
  mkState (users s) (filteredUsers s) v (searchTerm s)
          (currentPage s) (loading s) (error s).
Definition setSearchTerm (v : string) (s : State) : State :=
  mkState (users s) (filteredUsers s) (selectedUsers s) v
          (currentPage s) (loading s) (error s).
Definition setCurrentPage (v : Z) (s : State) : State :=
  mkState (users s) (filteredUsers s) (selectedUsers s) (searchTerm s)
          v (loading s) (error s).
Definition setLoading (v : bool) (s : State) : State :=
  mkState (users s) (filteredUsers s) (selectedUsers s) (searchTerm s)
          (currentPage s) v (error s).
Definition setError (v : option string) (s : State) : State :=
  mkState (users s) (filteredUsers s) (selectedUsers s) (searchTerm s)
          (currentPage s) (loading s) v.

#[global] Instance LoginInfo_eq_dec : EqDecision LoginInfo.
Proof. solve_decision. Defined.
#[global] Instance User_eq_dec : EqDecision User.
Proof. solve_decision. Defined.

(** * The component *)

Section Component.

(** [String.prototype.toLowerCase], see the head of the file. *)
Variable toLowerCase : string → string.

(** ** The filter effect *)

(** The callback given to [users.filter]. *)
Definition matchesSearch (term : string) (user : User) : bool :=
  let searchLower := toLowerCase term in
  JsString.includes (toLowerCase (firstname user)) searchLower ||
  JsString.includes (toLowerCase (lastname user)) searchLower ||
  JsString.includes (toLowerCase (email user)) searchLower ||
  JsString.includes (toLowerCase (username (login user))) searchLower.

(** Body of the second [useEffect], whose dependencies are
    [searchTerm] and [users]. *)
Definition filterEffect (s : State) : State :=
  if (Z.of_nat (length (users s)) =? 0) then s
  else
    let filtered := List.filter (matchesSearch (searchTerm s)) (users s) in
    setCurrentPage 1 (setFilteredUsers filtered s).

(** ** Values derived on every render *)

Definition indexOfLastUser (s : State) : Z := currentPage s * usersPerPage.
Definition indexOfFirstUser (s : State) : Z := indexOfLastUser s - usersPerPage.
Definition currentUsers (s : State) : list User :=
  JsArray.slice (filteredUsers s) (indexOfFirstUser s) (indexOfLastUser s).
Definition totalPages (s : State) : Z :=
  Math_ceil_div (Z.of_nat (length (filteredUsers s))) usersPerPage.

Definition isAllSelected (s : State) : bool :=
  (0 <? Z.of_nat (length (currentUsers s))) &&
  forallb (fun user => JsArray.includes (selectedUsers s) (id user)) (currentUsers s).

(** ** Selection handlers *)

Definition handleSelectUser (userId : Z) (s : State) : State :=
  if JsArray.includes (selectedUsers s) userId
  then setSelectedUsers
         (List.filter (fun i => negb (i =? userId)) (selectedUsers s)) s
  else setSelectedUsers (selectedUsers s ++ [userId]) s.

Definition handleSelectAll (checked : bool) (s : State) : State :=
  if checked then
    let allCurrentIds := map id (currentUsers s) in
    let newSelected := JsArray.uniq (selectedUsers s ++ allCurrentIds) in
    setSelectedUsers newSelected s
  else
    let currentIds := map id (currentUsers s) in
    setSelectedUsers
      (List.filter (fun i => negb (JsArray.includes currentIds i)) (selectedUsers s)) s.

(** ** Pagination handlers ([onClick] of the two buttons) *)

Definition handlePrevious (s : State) : State :=
  setCurrentPage (Z.max (currentPage s - 1) 1) s.

Definition handleNext (s : State) : State :=
  setCurrentPage (Z.min (currentPage s + 1) (totalPages s)) s.

(** ** The data loader ([fetchUsers], first [useEffect]) *)

(** What a [throw] or a rejected promise carries: an [Error] object with its
    message, or some value that is not an instance of [Error]. *)
Inductive Thrown :=
  | ErrorObject (message : string)
  | OtherValue.

(** What [response.json()] resolves to, as seen by
    [Array.isArray(data) && data.length > 0]. *)
Inductive JsonData :=
  | JArray (items : list User)
  | JNotArray.

Inductive BodyResult :=
  | BodyRejects (err : Thrown)
  | BodyResolves (data : JsonData).

Record Response := mkResponse {
  status : Z;
  body : BodyResult
}.

(** [response.ok]: by the Fetch standard, true exactly for a status in the
    range 200 to 299. *)
Definition ok (r : Response) : bool := (200 <=? status r) && (status r <=? 299).

(** How the single network request ends. *)
Inductive FetchResult :=
  | FetchRejects (err : Thrown)
  | FetchResolves (r : Response).

Definition dataFormatMessage : string := "Invalid data format received from API".
Definition httpErrorMessage (code : Z) : string :=
  "HTTP error! status: " +:+ JsString.ofNumber code.

(** The statements of the [try] block after the two initial setters.  The
    block either throws ([inl]) or completes with the state it has written
    ([inr]); every [throw] comes before the first setter of this part, so a
    thrown value leaves the state as it was on entry. *)
Definition fetchUsers_try (net : FetchResult) (s : State) : Thrown + State :=
  match net with
  | FetchRejects err => inl err
  | FetchResolves response =>
      if negb (ok response) then
        inl (ErrorObject (httpErrorMessage (status response)))
      else
        match body response with
        | BodyRejects err => inl err
        | BodyResolves data =>
            match data with
            | JArray items =>
                if 0 <? Z.of_nat (length items)
                then inr (setFilteredUsers items (setUsers items s))
                else inl (ErrorObject dataFormatMessage)
            | JNotArray => inl (ErrorObject dataFormatMessage)
            end
        end
  end.

(** [err instanceof Error ? err.message : 'Failed to fetch users'] *)
Definition errorMessage (err : Thrown) : string :=
  match err with
  | ErrorObject message => message
  | OtherValue => "Failed to fetch users"
  end.

Definition fetchUsers (net : FetchResult) (s : State) : State :=
  let entered := setError None (setLoading true s) in
  let settled :=
    match fetchUsers_try net entered with
    | inr done => done
    | inl err => setError (Some (errorMessage err)) entered
    end in
  setLoading false settled.

(** ** What is on screen *)

Inductive View :=
  | LoadingView
  | ErrorView (message : string)
  | TableView.

(** The three [return]s of the component: [if (loading)], [if (error)],
    and the table.  [if (error)] tests truthiness, so [null] and the empty
    string both fall through to the table. *)
Definition render (s : State) : View :=
  if loading s then LoadingView
  else match error s with
       | Some message => if JsString.truthy message then ErrorView message else TableView
       | None => TableView
       end.

Definition tableShown (s : State) : bool :=
  match render s with TableView => true | _ => false end.

(** [filteredUsers.length > 0 && (...)], inside the table view. *)
Definition paginationShown (s : State) : bool :=
  tableShown s && (0 <? Z.of_nat (length (filteredUsers s))).

(** ** Events and the component as a transition system *)

Inductive Event :=
  | FetchSettled (net : FetchResult)
  | SearchInput (value : string)
  | RowCheckbox (userId : Z)
  | SelectAllCheckbox (checked : bool)
  | ClickPrevious
  | ClickNext
  | ClickRetry.

(** Which events the rendered page can deliver.  The request issued at mount
    is pending exactly while [loading] holds; the inputs exist only in the
    table view; a row checkbox exists only for a row of the current page; a
    [disabled] button delivers no click; Retry exists only in the error
    view. *)
Definition enabled (e : Event) (s : State) : bool :=
  match e with
  | FetchSettled _ => loading s
  | SearchInput _ => tableShown s
  | RowCheckbox userId =>
      tableShown s && JsArray.includes (map id (currentUsers s)) userId
  | SelectAllCheckbox _ => tableShown s
  | ClickPrevious => paginationShown s && negb (currentPage s =? 1)
  | ClickNext => paginationShown s && negb (currentPage s =? totalPages s)
  | ClickRetry => match render s with ErrorView _ => true | _ => false end
  end.

(** The handler of each event.  Retry calls [window.location.reload()]: the
    page is loaded again and the component mounts afresh. *)
Definition handle (e : Event) (s : State) : State :=
  match e with
  | FetchSettled net => fetchUsers net s
  | SearchInput value => setSearchTerm value s
  | RowCheckbox userId => handleSelectUser userId s
  | SelectAllCheckbox checked => handleSelectAll checked s
  | ClickPrevious => handlePrevious s
  | ClickNext => handleNext s
  | ClickRetry => initialState
  end.

(** After the handler, React renders again and runs the filter effect when
    one of its dependencies [searchTerm], [users] differs from the previous
    render.  The only write to [users] stores a non-empty array over the
    initial empty one (see [reachable_loading] below), so comparing the two
    arrays by content decides the same as comparing them by identity. *)
Definition rerender (before after : State) : State :=
  if decide (searchTerm before = searchTerm after ∧ users before = users after)
  then after
  else filterEffect after.

Definition dispatch (e : Event) (s : State) : State := rerender s (handle e s).

(** The states of a mounted component.  At mount both effects run: the first
    starts the request, the second returns at once because [users] is
    empty, so the mounted component is in [initialState]. *)
Inductive reachable : State → Prop :=
  | reachable_mount : reachable initialState
  | reachable_dispatch s e :
      reachable s → enabled e s = true → reachable (dispatch e s).

Fixpoint run (events : list Event) (s : State) : State :=
  match events with
  | [] => s
  | e :: rest => run rest (dispatch e s)
  end.

Fixpoint allEnabled (events : list Event) (s : State) : bool :=
  match events with
  | [] => true
  | e :: rest => enabled e s && allEnabled rest (dispatch e s)
  end.

(** ** Sample data used to exercise the definitions *)

Definition sampleUser (i : Z) (first last mail uname : string) : User :=
  mkUser i first last mail "" (mkLoginInfo "" uname "" "" "" "") "" "".

Definition twelveUsers : list User :=
  [ sampleUser 1 "John" "Doe" "jd@corp.io" "johndoe";
    sampleUser 2 "Jane" "Smith" "js@corp.io" "jsmith";
    sampleUser 3 "Bob" "Stone" "bs@corp.io" "bobby";
    sampleUser 4 "Emily" "Brown" "eb@corp.io" "emilyb";
    sampleUser 5 "Oliver" "Quin" "oq@corp.io" "olli";
    sampleUser 6 "Sophie" "Turner" "st@corp.io" "sophie";
    sampleUser 7 "Liam" "Nilsson" "ln@corp.io" "liam";
    sampleUser 8 "Mia" "Wong" "mw@corp.io" "mia";
    sampleUser 9 "Noah" "Kim" "nk@corp.io" "noah";
    sampleUser 10 "Ava" "Lopez" "al@corp.io" "ava";
    sampleUser 11 "Ethan" "Hunt" "eh@corp.io" "ethan";
    sampleUser 12 "Zoe" "Frost" "zf@corp.io" "zoe" ].

Definition okResponse (items : list User) : Event :=
  FetchSettled (FetchResolves (mkResponse 200 (BodyResolves (JArray items)))).

(** The component after a successful load of [twelveUsers]. *)
Definition loadedState : State := run [okResponse twelveUsers] initialState.

(** The same, after two clicks on Next and a selection on page 3. *)
Definition page3State : State :=
  run [ClickNext; ClickNext; RowCheckbox 11] loadedState.

(** A search that matches no record. *)
Definition emptyResultState : State := dispatch (SearchInput "zzz") loadedState.

(** Record 7 selected on page 2, then back to page 1. *)
Definition otherPageState : State :=
  run [ClickNext; RowCheckbox 7; ClickPrevious] loadedState.

(** The same, after typing [A] into the search box while on page 3. *)
Definition searchedState : State := dispatch (SearchInput "A") page3State.

(** ** Further values computed while rendering the table *)

(** [const isSelected = selectedUsers.includes(user.id)], per row. *)
Definition isSelected (s : State) (user : User) : bool :=
  JsArray.includes (selectedUsers s) (id user).

(** [currentUsers.length === 0 && !loading && (...)]: the block saying that
    no user matches the search. *)
Definition noResultsShown (s : State) : bool :=
  tableShown s && (Z.of_nat (length (currentUsers s)) =? 0) && negb (loading s).

(** The two numbers of "Showing a to b of n users":
    [indexOfFirstUser + 1] and [Math.min(indexOfLastUser, filteredUsers.length)]. *)
Definition showingFrom (s : State) : Z := indexOfFirstUser s + 1.
Definition showingTo (s : State) : Z :=
  Z.min (indexOfLastUser s) (Z.of_nat (length (filteredUsers s))).

(** [disabled={currentPage === 1}] and [disabled={currentPage === totalPages}]. *)
Definition previousDisabled (s : State) : bool := currentPage s =? 1.
Definition nextDisabled (s : State) : bool := currentPage s =? totalPages s.

(** [selectedUsers.length > 0 && (...)] and the count it prints. *)
Definition summaryShown (s : State) : bool :=
  tableShown s && (0 <? Z.of_nat (length (selectedUsers s))).
Definition selectedCount (s : State) : Z := Z.of_nat (length (selectedUsers s)).

(** The rows the component shows once [currentPage] is [page]. *)
Definition rowsOfPage (s : State) (page : Z) : list User :=
  currentUsers (setCurrentPage page s).

(** Page numbers 1 .. [count]. *)
Definition pageNumbers (count : Z) : list Z :=
  map (fun k => Z.of_nat k) (seq 1 (Z.to_nat count)).

(** ** What is stored in each presentation state *)

Record shape (s : State) : Prop := mkShape {
  shape_loading : loading s = true → s = initialState;
  shape_error : ∀ message, error s = Some message →
    loading s = false ∧ users s = [] ∧ filteredUsers s = []
    ∧ selectedUsers s = [] ∧ currentPage s = 1;
  shape_data : loading s = false → error s = None → users s ≠ [];
  shape_selected : ∀ i, i ∈ selectedUsers s → i ∈ map id (users s)
}.

(** More sample states: a request that failed with status 500, and a
    selection of the whole first page after a visit to page 2. *)
Definition failedState : State :=
  dispatch (FetchSettled (FetchResolves (mkResponse 500 (BodyRejects OtherValue))))
           initialState.

Definition pageOneSelectedState : State :=
  run [ClickNext; RowCheckbox 7; ClickPrevious; SelectAllCheckbox true] loadedState.

(** ** The invariant of the mounted component *)

Record invariant (s : State) : Prop := mkInvariant {
  inv_filtered :
    filteredUsers s = List.filter (matchesSearch (searchTerm s)) (users s);
  inv_page_empty : filteredUsers s = [] → currentPage s = 1;
  inv_page_range : filteredUsers s ≠ [] → 1 ≤ currentPage s ≤ totalPages s;
  inv_selected : NoDup (selectedUsers s);
  inv_loading : loading s = true → users s = [] ∧ searchTerm s = EmptyString
}.

(** * Properties *)

(** ** Strings *)

Lemma startsWith_empty (s : string) : JsString.startsWith s "" = true.
Proof. by destruct s. Qed.

Lemma startsWith_append (t rest : string) : JsString.startsWith (t +:+ rest) t = true.
Proof.
  induction t as [|c t IH]; simpl; [apply startsWith_empty|].
  by rewrite Ascii.eqb_refl, IH.
Qed.

Lemma startsWith_inv (s t : string) :
  JsString.startsWith s t = true → ∃ rest, s = t +:+ rest.
Proof.
  revert s. induction t as [|b t IH]; intros s H.
  - by exists s.
  - destruct s as [|a s]; simpl in H; [done|].
    apply andb_true_iff in H as [Hab Hrest].
    apply Ascii.eqb_eq in Hab as ->.
    destruct (IH _ Hrest) as [rest ->]. by exists rest.
Qed.

Lemma includes_empty (s : string) : JsString.includes s "" = true.
Proof. destruct s; simpl; done. Qed.

Lemma includes_nil (t : string) : JsString.includes "" t = JsString.startsWith "" t.
Proof. simpl. by rewrite orb_false_r. Qed.

Lemma includes_cons (a : ascii) (s t : string) :
  JsString.includes (String a s) t
    = JsString.startsWith (String a s) t || JsString.includes s t.
Proof. done. Qed.

(** The search loop of [JsString.includes] decides the substring relation. *)
Lemma includes_isSubstring (s t : string) :
  JsString.includes s t = true ↔ JsString.isSubstring t s.
Proof.
  split.
  - induction s as [|a s IH]; intros H.
    + rewrite includes_nil in H. apply startsWith_inv in H as [rest ->].
      by exists ""%string, rest.
    + rewrite includes_cons in H. apply orb_true_iff in H as [H|H].
      * apply startsWith_inv in H as [rest ->]. by exists ""%string, rest.
      * destruct (IH H) as (before & after & ->).
        by exists (String a before), after.
  - intros (before & after & ->).
    induction before as [|a before IH].
    + change ("" +:+ t +:+ after)%string with (t +:+ after)%string.
      destruct (t +:+ after)%string eqn:E.
      * rewrite includes_nil, <- E. apply startsWith_append.
      * rewrite includes_cons, <- E, startsWith_append. done.
    + change (String a before +:+ t +:+ after)%string
        with (String a (before +:+ t +:+ after)).
      by rewrite includes_cons, IH, orb_true_r.
Qed.

Lemma includes_append (before t after : string) :
  JsString.includes (before +:+ t +:+ after) t = true.
Proof. apply includes_isSubstring. by exists before, after. Qed.

Lemma append_empty (s : string) : (s +:+ "")%string = s.
Proof.
  induction s as [|a s IH]; [done|].
  change (String a (s +:+ "") = String a s). by rewrite IH.
Qed.

Lemma isSubstring_suffix (before t : string) : JsString.isSubstring t (before +:+ t).
Proof. exists before, ""%string. by rewrite append_empty. Qed.

Lemma includes_suffix (before t : string) : JsString.includes (before +:+ t) t = true.
Proof. apply includes_isSubstring, isSubstring_suffix. Qed.


(** ** Arrays *)

Lemma includes_elem (arr : list Z) (x : Z) : JsArray.includes arr x = true ↔ x ∈ arr.
Proof.
  unfold JsArray.includes. rewrite existsb_exists. split.
  - intros (y & Hy & Heq). apply Z.eqb_eq in Heq as ->.
    by apply list_elem_of_In.
  - intros H. exists x. split; [by apply list_elem_of_In | apply Z.eqb_refl].
Qed.

Lemma includes_not_elem (arr : list Z) (x : Z) :
  JsArray.includes arr x = false ↔ x ∉ arr.
Proof.
  rewrite <- includes_elem. destruct (JsArray.includes arr x); split; done.
Qed.

Lemma uniq_fold (arr : list Z) : JsArray.uniq arr = fold_left JsArray.addOnce arr [].
Proof. done. Qed.

Lemma fold_addOnce_elem (arr seen : list Z) (x : Z) :
  x ∈ fold_left JsArray.addOnce arr seen ↔ x ∈ seen ∨ x ∈ arr.
Proof.
  revert seen. induction arr as [|a arr IH]; intros seen; simpl.
  - set_solver.
  - rewrite IH. unfold JsArray.addOnce. destruct (JsArray.includes seen a) eqn:E.
    + apply includes_elem in E. set_solver.
    + set_solver.
Qed.

Lemma fold_addOnce_NoDup (arr seen : list Z) :
  NoDup seen → NoDup (fold_left JsArray.addOnce arr seen).
Proof.
  revert seen. induction arr as [|a arr IH]; intros seen Hnd; simpl; [done|].
  apply IH. unfold JsArray.addOnce. destruct (JsArray.includes seen a) eqn:E; [done|].
  apply includes_not_elem in E. apply NoDup_app. split_and!; [done| |apply NoDup_singleton].
  intros y Hy Hya. apply list_elem_of_singleton in Hya as ->. done.
Qed.

(** The loop only ever appends: what was seen stays in front, and what is
    appended comes from the array being inserted. *)
Lemma fold_addOnce_extends (arr seen : list Z) :
  ∃ extra, fold_left JsArray.addOnce arr seen = seen ++ extra ∧ extra ⊆ arr.
Proof.
  revert seen. induction arr as [|a arr IH]; intros seen; simpl.
  - exists []. by rewrite app_nil_r.
  - destruct (IH (JsArray.addOnce seen a)) as (extra & -> & Hsub).
    unfold JsArray.addOnce. destruct (JsArray.includes seen a).
    + exists extra. set_solver.
    + exists (a :: extra). rewrite <- app_assoc. set_solver.
Qed.

Lemma fold_addOnce_id (arr seen : list Z) :
  NoDup (seen ++ arr) → fold_left JsArray.addOnce arr seen = seen ++ arr.
Proof.
  revert seen. induction arr as [|a arr IH]; intros seen Hnd; simpl.
  - by rewrite app_nil_r.
  - assert (JsArray.includes seen a = false) as E.
    { apply includes_not_elem. apply NoDup_app in Hnd as (_ & Hdisj & _).
      intros Hin. apply (Hdisj a Hin). left. }
    unfold JsArray.addOnce at 2. rewrite E.
    rewrite IH; rewrite <- app_assoc; done.
Qed.

Lemma uniq_elem (arr : list Z) (x : Z) : x ∈ JsArray.uniq arr ↔ x ∈ arr.
Proof. rewrite uniq_fold, fold_addOnce_elem. set_solver. Qed.

Lemma uniq_NoDup (arr : list Z) : NoDup (JsArray.uniq arr).
Proof. rewrite uniq_fold. apply fold_addOnce_NoDup, NoDup_nil_2. Qed.

Lemma uniq_id (arr : list Z) : NoDup arr → JsArray.uniq arr = arr.
Proof. intros H. rewrite uniq_fold. by apply (fold_addOnce_id arr []). Qed.

(** Inserting [sel ++ extra] into a set when [sel] has no duplicates:
    [sel] stays in front, followed by values of [extra]. *)
Lemma uniq_app (sel extra : list Z) :
  NoDup sel → ∃ added, JsArray.uniq (sel ++ extra) = sel ++ added ∧ added ⊆ extra.
Proof.
  intros Hnd. rewrite uniq_fold, fold_left_app.
  rewrite <- (uniq_fold sel), uniq_id by done.
  apply fold_addOnce_extends.
Qed.

(** [JsArray.slice] inside the array: a plain take-after-drop. *)
Lemma slice_inside {A : Type} (arr : list A) (start finish : Z) :
  0 ≤ start → 0 ≤ finish →
  JsArray.slice arr start finish =
    take (Z.to_nat (Z.min finish (Z.of_nat (length arr))
                    - Z.min start (Z.of_nat (length arr))))
         (drop (Z.to_nat (Z.min start (Z.of_nat (length arr)))) arr).
Proof.
  intros Hs Hf. unfold JsArray.slice.
  destruct (Z.ltb_spec start 0); [lia|].
  destruct (Z.ltb_spec finish 0); [lia|]. done.
Qed.

Lemma slice_length_le {A : Type} (arr : list A) (start finish : Z) :
  0 ≤ start → 0 ≤ finish →
  Z.of_nat (length (JsArray.slice arr start finish)) ≤ Z.max 0 (finish - start).
Proof.
  intros Hs Hf. unfold JsArray.slice. rewrite length_take, length_drop.
  destruct (Z.ltb_spec start 0); [lia|].
  destruct (Z.ltb_spec finish 0); lia.
Qed.

Lemma slice_sublist {A : Type} (arr : list A) (start finish : Z) :
  sublist (JsArray.slice arr start finish) arr.
Proof.
  unfold JsArray.slice. etrans; [apply sublist_take | apply sublist_drop].
Qed.


(** ** Page arithmetic *)

Lemma Math_ceil_div_bounds (a b : Z) :
  0 < b → b * (Math_ceil_div a b - 1) < a ≤ b * Math_ceil_div a b.
Proof.
  intros Hb. unfold Math_ceil_div.
  pose proof (Z.div_mod (- a) b ltac:(lia)).
  pose proof (Z.mod_pos_bound (- a) b Hb). lia.
Qed.

Lemma Math_ceil_div_unique (a b c : Z) :
  0 < b → b * (c - 1) < a ≤ b * c → Math_ceil_div a b = c.
Proof.
  intros Hb Hc. pose proof (Math_ceil_div_bounds a b Hb). nia.
Qed.

Lemma totalPages_bounds (s : State) :
  usersPerPage * (totalPages s - 1) < Z.of_nat (length (filteredUsers s))
    ≤ usersPerPage * totalPages s.
Proof. apply Math_ceil_div_bounds. done. Qed.

Lemma totalPages_nil (s : State) : filteredUsers s = [] → totalPages s = 0.
Proof. unfold totalPages. by intros ->. Qed.

Lemma totalPages_pos (s : State) : filteredUsers s ≠ [] → 1 ≤ totalPages s.
Proof.
  intros Hne. pose proof (totalPages_bounds s) as H. unfold usersPerPage in H.
  destruct (filteredUsers s); [done|]. simpl length in H. lia.
Qed.

(** ** [Array.prototype.filter] *)

Section ListFilter.
Context {A : Type} (keep : A → bool).

Lemma filter_elem (arr : list A) (x : A) :
  x ∈ List.filter keep arr ↔ x ∈ arr ∧ keep x = true.
Proof. rewrite !list_elem_of_In. apply filter_In. Qed.

Lemma filter_sublist (arr : list A) : sublist (List.filter keep arr) arr.
Proof.
  induction arr as [|a arr IH]; simpl; [constructor|].
  destruct (keep a); by constructor.
Qed.

Lemma filter_NoDup (arr : list A) : NoDup arr → NoDup (List.filter keep arr).
Proof. intros H. eapply sublist_NoDup; [done | apply filter_sublist]. Qed.

Lemma filter_all (arr : list A) :
  (∀ x, x ∈ arr → keep x = true) → List.filter keep arr = arr.
Proof.
  induction arr as [|a arr IH]; intros H; simpl; [done|].
  rewrite (H a) by left. f_equal. apply IH. intros x Hx. apply H. by right.
Qed.

Lemma filter_none (arr : list A) :
  (∀ x, x ∈ arr → keep x = false) → List.filter keep arr = [].
Proof.
  induction arr as [|a arr IH]; intros H; simpl; [done|].
  rewrite (H a) by left. apply IH. intros x Hx. apply H. by right.
Qed.
End ListFilter.

(** ** The filter engine *)

Lemma matchesSearch_spec (term : string) (user : User) :
  matchesSearch term user = true ↔
    let t := toLowerCase term in
    JsString.isSubstring t (toLowerCase (firstname user)) ∨
    JsString.isSubstring t (toLowerCase (lastname user)) ∨
    JsString.isSubstring t (toLowerCase (email user)) ∨
    JsString.isSubstring t (toLowerCase (username (login user))).
Proof.
  unfold matchesSearch. cbv zeta.
  rewrite !orb_true_iff, !includes_isSubstring. tauto.
Qed.

(** The empty term matches every record, given that the empty string is its
    own lower-case form. *)
Lemma matchesSearch_empty (user : User) :
  toLowerCase "" = EmptyString → matchesSearch "" user = true.
Proof.
  intros Hempty. unfold matchesSearch. cbv zeta. rewrite Hempty.
  by rewrite includes_empty.
Qed.

Lemma filter_empty_term (arr : list User) :
  toLowerCase "" = EmptyString → List.filter (matchesSearch "") arr = arr.
Proof. intros Hempty. apply filter_all. intros x _. by apply matchesSearch_empty. Qed.

(** ** Re-rendering *)

Lemma rerender_same (before after : State) :
  searchTerm before = searchTerm after → users before = users after →
  rerender before after = after.
Proof. intros. unfold rerender. by rewrite decide_True. Qed.

Lemma dispatch_RowCheckbox (userId : Z) (s : State) :
  dispatch (RowCheckbox userId) s = handleSelectUser userId s.
Proof.
  apply rerender_same; simpl; unfold handleSelectUser;
    by destruct (JsArray.includes _ _).
Qed.

Lemma dispatch_SelectAllCheckbox (checked : bool) (s : State) :
  dispatch (SelectAllCheckbox checked) s = handleSelectAll checked s.
Proof. apply rerender_same; by destruct checked. Qed.

Lemma dispatch_ClickPrevious (s : State) :
  dispatch ClickPrevious s = handlePrevious s.
Proof. by apply rerender_same. Qed.

Lemma dispatch_ClickNext (s : State) : dispatch ClickNext s = handleNext s.
Proof. by apply rerender_same. Qed.

Lemma dispatch_ClickRetry (s : State) : dispatch ClickRetry s = initialState.
Proof. unfold dispatch, rerender. simpl handle. by case_decide. Qed.

Lemma dispatch_SearchInput_changed (value : string) (s : State) :
  value ≠ searchTerm s →
  dispatch (SearchInput value) s = filterEffect (setSearchTerm value s).
Proof.
  intros Hne. unfold dispatch, rerender. simpl handle.
  rewrite decide_False; [done|]. simpl. intros [? _]. by apply Hne.
Qed.

Lemma filterEffect_empty (s : State) : users s = [] → filterEffect s = s.
Proof. unfold filterEffect. by intros ->. Qed.

Lemma filterEffect_nonempty (s : State) :
  users s ≠ [] →
  filterEffect s =
    setCurrentPage 1
      (setFilteredUsers (List.filter (matchesSearch (searchTerm s)) (users s)) s).
Proof.
  unfold filterEffect. intros Hne.
  destruct (Z.eqb_spec (Z.of_nat (length (users s))) 0) as [E|E]; [|done].
  destruct (users s); [done|]. simpl in E. lia.
Qed.

(** ** The data loader *)

(** The [try] block completes only for a 2xx response whose body is a
    non-empty array. *)
Lemma fetchUsers_try_inr (net : FetchResult) (s done : State) :
  fetchUsers_try net s = inr done →
  ∃ items, items ≠ [] ∧ done = setFilteredUsers items (setUsers items s).
Proof.
  unfold fetchUsers_try. intros H.
  destruct net as [err|r]; [done|].
  destruct (ok r); simpl in H; [|done].
  destruct (body r) as [err|[items|]]; try done.
  destruct items as [|u items]; simpl in H; [done|].
  exists (u :: items). split; [done|]. by inversion H.
Qed.

Lemma fetchUsers_failed (net : FetchResult) (s : State) (err : Thrown) :
  fetchUsers_try net (setError None (setLoading true s)) = inl err →
  fetchUsers net s =
    mkState (users s) (filteredUsers s) (selectedUsers s) (searchTerm s)
            (currentPage s) false (Some (errorMessage err)).
Proof. unfold fetchUsers. by intros ->. Qed.

Lemma fetchUsers_stored (net : FetchResult) (s : State) (items : list User) :
  fetchUsers_try net (setError None (setLoading true s))
    = inr (setFilteredUsers items (setUsers items (setError None (setLoading true s)))) →
  fetchUsers net s =
    mkState items items (selectedUsers s) (searchTerm s)
            (currentPage s) false None.
Proof. unfold fetchUsers. by intros ->. Qed.

Lemma dispatch_FetchSettled_failed (net : FetchResult) (s : State) (err : Thrown) :
  fetchUsers_try net (setError None (setLoading true s)) = inl err →
  dispatch (FetchSettled net) s =
    mkState (users s) (filteredUsers s) (selectedUsers s) (searchTerm s)
            (currentPage s) false (Some (errorMessage err)).
Proof.
  intros H. unfold dispatch. simpl handle.
  rewrite (fetchUsers_failed _ _ _ H). by apply rerender_same.
Qed.

(** ** Every state of the mounted component satisfies the invariant *)

Lemma invariant_initial : invariant initialState.
Proof. split; simpl; try done. constructor. Qed.

Lemma invariant_fetch (net : FetchResult) (s : State) :
  invariant s → loading s = true → invariant (dispatch (FetchSettled net) s).
Proof.
  intros [Hf Hpe Hpr Hsel Hload] Hl.
  destruct (Hload Hl) as [Hu Ht].
  destruct (fetchUsers_try net (setError None (setLoading true s))) as [err|done] eqn:E.
  - rewrite (dispatch_FetchSettled_failed _ _ _ E). by split.
  - destruct (fetchUsers_try_inr _ _ _ E) as (items & Hne & ->).
    unfold dispatch. simpl handle. rewrite (fetchUsers_stored _ _ _ E).
    unfold rerender. rewrite decide_False; [|simpl; rewrite Hu; naive_solver].
    rewrite filterEffect_nonempty by done. simpl.
    split; simpl; try done.
    intros Hne'. split; [lia|].
    by apply (totalPages_pos (mkState _ _ _ _ _ _ _)).
Qed.

Lemma tableShown_loaded (s : State) : tableShown s = true → loading s = false.
Proof. unfold tableShown, render. by destruct (loading s). Qed.

Lemma invariant_search (value : string) (s : State) :
  invariant s → loading s = false → invariant (dispatch (SearchInput value) s).
Proof.
  intros [Hf Hpe Hpr Hsel Hload] Hl.
  destruct (decide (value = searchTerm s)) as [->|Hne].
  - unfold dispatch. rewrite rerender_same by done. by split.
  - rewrite dispatch_SearchInput_changed by done.
    destruct (users s) as [|u rest] eqn:Hu.
    + rewrite filterEffect_empty by done.
      split; simpl; try done; try congruence.
      by rewrite Hu.
    + rewrite filterEffect_nonempty by (simpl; by rewrite Hu).
      split; simpl; try done; try congruence.
      intros Hne'. split; [lia|].
      by apply (totalPages_pos (mkState _ _ _ _ _ _ _)).
Qed.

Lemma invariant_selection (sel : list Z) (s : State) :
  invariant s → NoDup sel → invariant (setSelectedUsers sel s).
Proof. intros [Hf Hpe Hpr Hsel Hload] Hnd. by split. Qed.

Lemma invariant_page (page : Z) (s : State) :
  invariant s → filteredUsers s ≠ [] → 1 ≤ page ≤ totalPages s →
  invariant (setCurrentPage page s).
Proof. intros [Hf Hpe Hpr Hsel Hload] Hne Hp. by split. Qed.

Lemma handleSelectUser_NoDup (userId : Z) (s : State) :
  NoDup (selectedUsers s) → NoDup (selectedUsers (handleSelectUser userId s)).
Proof.
  intros Hnd. unfold handleSelectUser.
  destruct (JsArray.includes (selectedUsers s) userId) eqn:E; simpl.
  - by apply filter_NoDup.
  - apply includes_not_elem in E.
    apply NoDup_app. split_and!; [done| |apply NoDup_singleton].
    intros y Hy Hyu. apply list_elem_of_singleton in Hyu as ->. done.
Qed.

Lemma handleSelectAll_NoDup (checked : bool) (s : State) :
  NoDup (selectedUsers s) → NoDup (selectedUsers (handleSelectAll checked s)).
Proof.
  intros Hnd. destruct checked; simpl.
  - apply uniq_NoDup.
  - by apply filter_NoDup.
Qed.

Lemma paginationShown_nonempty (s : State) :
  paginationShown s = true → filteredUsers s ≠ [].
Proof.
  unfold paginationShown. intros H Hnil. rewrite Hnil in H.
  by rewrite andb_false_r in H.
Qed.

Lemma invariant_dispatch (e : Event) (s : State) :
  invariant s → enabled e s = true → invariant (dispatch e s).
Proof.
  intros Hinv Hen. destruct e as [net|value|userId|checked| | |]; simpl in Hen.
  - by apply invariant_fetch.
  - apply invariant_search; [done|]. by apply tableShown_loaded.
  - rewrite dispatch_RowCheckbox.
    pose proof (handleSelectUser_NoDup userId s (inv_selected _ Hinv)) as Hnd.
    unfold handleSelectUser in *.
    destruct (JsArray.includes (selectedUsers s) userId);
      by apply invariant_selection.
  - rewrite dispatch_SelectAllCheckbox.
    pose proof (handleSelectAll_NoDup checked s (inv_selected _ Hinv)) as Hnd.
    destruct checked; by apply invariant_selection.
  - rewrite dispatch_ClickPrevious.
    apply andb_true_iff in Hen as [Hshown _].
    apply paginationShown_nonempty in Hshown.
    pose proof (inv_page_range _ Hinv Hshown).
    apply invariant_page; [done..|lia].
  - rewrite dispatch_ClickNext.
    apply andb_true_iff in Hen as [Hshown _].
    apply paginationShown_nonempty in Hshown.
    pose proof (inv_page_range _ Hinv Hshown).
    apply invariant_page; [done..|lia].
  - rewrite dispatch_ClickRetry. apply invariant_initial.
Qed.

Theorem reachable_invariant (s : State) : reachable s → invariant s.
Proof.
  induction 1 as [|s e _ IH Hen]; [apply invariant_initial|].
  by apply invariant_dispatch.
Qed.

(** While the request is pending nothing has been stored or typed. *)
Lemma reachable_loading (s : State) :
  reachable s → loading s = true → users s = [] ∧ searchTerm s = EmptyString.
Proof. intros Hr. apply inv_loading. by apply reachable_invariant. Qed.

Lemma reachable_run (events : list Event) (s : State) :
  reachable s → allEnabled events s = true → reachable (run events s).
Proof.
  revert s. induction events as [|e rest IH]; intros s Hr Hen; simpl in *; [done|].
  apply andb_true_iff in Hen as [He Hrest].
  apply IH; [|done]. by constructor.
Qed.

(** Every non-empty base list and every search term occur in a state of the
    mounted component: load the list, then type the term. *)
Lemma reachable_load_then_search (items : list User) (term : string) :
  toLowerCase "" = EmptyString →
  items ≠ [] →
  let s := run [okResponse items; SearchInput term] initialState in
  reachable s ∧ users s = items ∧ searchTerm s = term
  ∧ filteredUsers s = List.filter (matchesSearch term) items.
Proof.
  intros Hempty Hne s.
  assert (dispatch (okResponse items) initialState
          = mkState items items [] "" 1 false None) as Hload.
  { unfold dispatch, okResponse. simpl handle.
    rewrite (fetchUsers_stored _ _ items).
    - unfold rerender. rewrite decide_False by (simpl; naive_solver).
      rewrite filterEffect_nonempty by done. simpl.
      by rewrite filter_empty_term.
    - simpl. by destruct items. }
  assert (reachable s) as Hr.
  { apply (reachable_run _ _ reachable_mount). simpl.
    rewrite Hload. done. }
  assert (users s = items ∧ searchTerm s = term) as [Hu Ht].
  { subst s. simpl run. rewrite Hload.
    destruct (decide (term = ""%string)) as [->|Hterm].
    - unfold dispatch. by rewrite rerender_same.
    - rewrite dispatch_SearchInput_changed by done.
      by rewrite filterEffect_nonempty. }
  split_and!; try done.
  by rewrite (inv_filtered _ (reachable_invariant _ Hr)), Hu, Ht.
Qed.

(** * The filter engine (section 4.2 of the specification) *)

(** C1.  In every state of the mounted component the filtered list is the
    base list filtered, in base-list order, by the test "the lower-cased
    search term is a substring of the lower-cased first name, last name,
    email or username", whatever function [toLowerCase] is.  Hence a record
    is in the filtered list exactly when it is in the base list and one of
    the four fields matches; the empty term keeps every record (the empty
    string being its own lower-case form); the filtered list is a
    sub-sequence, and so a subset, of the base list. *)
Theorem filtered_list_exact (s : State) :
  reachable s →
  filteredUsers s = List.filter (matchesSearch (searchTerm s)) (users s)
  ∧ (∀ user, matchesSearch (searchTerm s) user = true ↔
       JsString.isSubstring (toLowerCase (searchTerm s))
                            (toLowerCase (firstname user))
       ∨ JsString.isSubstring (toLowerCase (searchTerm s))
                              (toLowerCase (lastname user))
       ∨ JsString.isSubstring (toLowerCase (searchTerm s))
                              (toLowerCase (email user))
       ∨ JsString.isSubstring (toLowerCase (searchTerm s))
                              (toLowerCase (username (login user))))
  ∧ (∀ user, user ∈ filteredUsers s ↔
       user ∈ users s ∧ matchesSearch (searchTerm s) user = true)
  ∧ (toLowerCase "" = EmptyString →
       searchTerm s = EmptyString → filteredUsers s = users s)
  ∧ sublist (filteredUsers s) (users s)
  ∧ filteredUsers s ⊆ users s.
Proof.
  intros Hr. pose proof (inv_filtered _ (reachable_invariant _ Hr)) as Hf.
  split_and!.
  - done.
  - intros user. apply matchesSearch_spec.
  - intros user. rewrite Hf. apply filter_elem.
  - intros Hempty Ht. rewrite Hf, Ht. by apply filter_empty_term.
  - rewrite Hf. apply filter_sublist.
  - intros user. rewrite Hf, filter_elem. tauto.
Qed.

(** The recomputation itself, for any state with a non-empty base list. *)
Lemma filterEffect_filtered (s : State) :
  users s ≠ [] →
  filteredUsers (filterEffect s) = List.filter (matchesSearch (searchTerm s)) (users s)
  ∧ currentPage (filterEffect s) = 1.
Proof. intros H. by rewrite filterEffect_nonempty. Qed.

(** C2.  In every state of the mounted component, typing a search term
    different from the current one leaves the component on page 1 (with the
    new term stored). *)
Theorem search_resets_page (s : State) (value : string) :
  reachable s →
  value ≠ searchTerm s →
  currentPage (dispatch (SearchInput value) s) = 1
  ∧ searchTerm (dispatch (SearchInput value) s) = value.
Proof.
  intros Hr Hne. rewrite dispatch_SearchInput_changed by done.
  destruct (users s) as [|u rest] eqn:Hu.
  - rewrite filterEffect_empty by done. simpl. split; [|done].
    pose proof (reachable_invariant _ Hr) as Hinv.
    apply (inv_page_empty _ Hinv). by rewrite (inv_filtered _ Hinv), Hu.
  - rewrite filterEffect_nonempty by (simpl; by rewrite Hu). done.
Qed.

(** * The selection manager (section 4.4 of the specification) *)

Lemma includes_page_ids (ids : list Z) (i : Z) :
  negb (JsArray.includes ids i) = true ↔ i ∉ ids.
Proof. rewrite negb_true_iff. apply includes_not_elem. Qed.

Lemma differs_from (userId i : Z) : negb (i =? userId) = true ↔ i ≠ userId.
Proof. rewrite negb_true_iff. apply Z.eqb_neq. Qed.

Lemma handleSelectUser_absent (userId : Z) (s : State) :
  userId ∉ selectedUsers s →
  selectedUsers (handleSelectUser userId s) = selectedUsers s ++ [userId].
Proof.
  intros H. apply includes_not_elem in H.
  unfold handleSelectUser. by rewrite H.
Qed.

Lemma handleSelectUser_present (userId : Z) (s : State) :
  userId ∈ selectedUsers s →
  selectedUsers (handleSelectUser userId s)
    = List.filter (fun i => negb (i =? userId)) (selectedUsers s).
Proof.
  intros H. apply includes_elem in H.
  unfold handleSelectUser. by rewrite H.
Qed.

Lemma handleSelectUser_elem (userId i : Z) (s : State) :
  i ∈ selectedUsers (handleSelectUser userId s) ↔
    (i = userId ∧ userId ∉ selectedUsers s) ∨ (i ≠ userId ∧ i ∈ selectedUsers s).
Proof.
  destruct (decide (userId ∈ selectedUsers s)) as [Hin|Hout].
  - rewrite handleSelectUser_present, filter_elem, differs_from by done. tauto.
  - rewrite handleSelectUser_absent, elem_of_app, list_elem_of_singleton by done.
    destruct (decide (i = userId)) as [->|]; tauto.
Qed.

(** C6.  Ticking a row's checkbox adds the row's id to the selection when it
    is absent and removes it when it is present, every other id being left
    as it was; a selection without duplicates stays without duplicates, and
    the selection of the mounted component never holds one; two ticks in a
    row give back the selection set they started from. *)
Theorem toggle_selection (s : State) (userId : Z) :
  let once := dispatch (RowCheckbox userId) s in
  let twice := dispatch (RowCheckbox userId) once in
  (userId ∉ selectedUsers s →
     selectedUsers once = selectedUsers s ++ [userId] ∧ userId ∈ selectedUsers once)
  ∧ (userId ∈ selectedUsers s → userId ∉ selectedUsers once)
  ∧ (∀ i, i ≠ userId → (i ∈ selectedUsers once ↔ i ∈ selectedUsers s))
  ∧ (NoDup (selectedUsers s) → NoDup (selectedUsers once))
  ∧ (reachable s → NoDup (selectedUsers s))
  ∧ list_to_set (selectedUsers twice) =@{gset Z} list_to_set (selectedUsers s)
  ∧ (NoDup (selectedUsers s) → selectedUsers twice ≡ₚ selectedUsers s).
Proof.
  intros once twice. subst once twice. rewrite !dispatch_RowCheckbox.
  assert (∀ i, i ∈ selectedUsers (handleSelectUser userId (handleSelectUser userId s))
               ↔ i ∈ selectedUsers s) as Htwice.
  { intros i. rewrite !handleSelectUser_elem.
    destruct (decide (i = userId)) as [->|];
      destruct (decide (userId ∈ selectedUsers s)); naive_solver. }
  split_and!.
  - intros H. rewrite handleSelectUser_absent by done. split; [done|set_solver].
  - intros H. rewrite handleSelectUser_elem. tauto.
  - intros i Hi. rewrite handleSelectUser_elem. tauto.
  - apply handleSelectUser_NoDup.
  - intros Hr. apply inv_selected. by apply reachable_invariant.
  - apply set_eq. intros i. rewrite !elem_of_list_to_set. apply Htwice.
  - intros Hnd. apply NoDup_Permutation; [|done|done].
    by do 2 apply handleSelectUser_NoDup.
Qed.

Lemma handleSelectAll_on (s : State) :
  selectedUsers (handleSelectAll true s)
    = JsArray.uniq (selectedUsers s ++ map id (currentUsers s)).
Proof. done. Qed.

Lemma handleSelectAll_off (s : State) :
  selectedUsers (handleSelectAll false s)
    = List.filter (fun i => negb (JsArray.includes (map id (currentUsers s)) i))
                  (selectedUsers s).
Proof. done. Qed.

Lemma handleSelectAll_frame (checked : bool) (s : State) :
  handleSelectAll checked s
    = setSelectedUsers (selectedUsers (handleSelectAll checked s)) s.
Proof. by destruct checked. Qed.

Lemma handleSelectAll_page (checked : bool) (s : State) :
  currentUsers (handleSelectAll checked s) = currentUsers s.
Proof. by destruct checked. Qed.

(** C7.  Ticking the header checkbox stores the selection followed by the
    ids of the current page, each id once: a list without duplicates whose
    set is the union of the two.  Unticking it removes the ids of the
    current page and nothing else: what remains is the selection, in order,
    without the ids on the page.  Neither touches any other part of the
    state. *)
Theorem select_all_on_page (s : State) :
  let pageIds := map id (currentUsers s) in
  let on := dispatch (SelectAllCheckbox true) s in
  let off := dispatch (SelectAllCheckbox false) s in
  NoDup (selectedUsers on)
  ∧ list_to_set (selectedUsers on)
      =@{gset Z} list_to_set (selectedUsers s) ∪ list_to_set pageIds
  ∧ list_to_set (selectedUsers off)
      =@{gset Z} list_to_set (selectedUsers s) ∖ list_to_set pageIds
  ∧ (∀ i, i ∈ selectedUsers off ↔ i ∈ selectedUsers s ∧ i ∉ pageIds)
  ∧ sublist (selectedUsers off) (selectedUsers s)
  ∧ on = setSelectedUsers (selectedUsers on) s
  ∧ off = setSelectedUsers (selectedUsers off) s.
Proof.
  intros pageIds on off. subst pageIds on off.
  rewrite !dispatch_SelectAllCheckbox.
  split_and!.
  - rewrite handleSelectAll_on. apply uniq_NoDup.
  - apply set_eq. intros i.
    rewrite handleSelectAll_on, elem_of_union, !elem_of_list_to_set.
    rewrite uniq_elem. apply elem_of_app.
  - apply set_eq. intros i.
    rewrite handleSelectAll_off, elem_of_difference, !elem_of_list_to_set.
    by rewrite filter_elem, includes_page_ids.
  - intros i. by rewrite handleSelectAll_off, filter_elem, includes_page_ids.
  - rewrite handleSelectAll_off. apply filter_sublist.
  - apply handleSelectAll_frame.
  - apply handleSelectAll_frame.
Qed.

(** C3, as the code has it.  Ticking and then unticking the header checkbox
    on the same page leaves the selection without the ids of that page: ids
    outside the page are kept, ids on the page end up unselected whether or
    not they were selected before.  So the selection set comes back exactly
    when it held no id of the page; in that case, and without duplicates,
    the stored list itself comes back. *)
Theorem select_all_round_trip (s : State) :
  let pageIds := map id (currentUsers s) in
  let after :=
    dispatch (SelectAllCheckbox false) (dispatch (SelectAllCheckbox true) s) in
  list_to_set (selectedUsers after)
    =@{gset Z} list_to_set (selectedUsers s) ∖ list_to_set pageIds
  ∧ (list_to_set (selectedUsers after) =@{gset Z} list_to_set (selectedUsers s)
       ↔ ∀ i, i ∈ selectedUsers s → i ∉ pageIds)
  ∧ (NoDup (selectedUsers s) → (∀ i, i ∈ selectedUsers s → i ∉ pageIds) →
       selectedUsers after = selectedUsers s).
Proof.
  intros pageIds after. subst pageIds after.
  rewrite !dispatch_SelectAllCheckbox.
  assert (∀ i, i ∈ selectedUsers (handleSelectAll false (handleSelectAll true s))
               ↔ i ∈ selectedUsers s ∧ i ∉ map id (currentUsers s)) as Helem.
  { intros i. rewrite handleSelectAll_off, filter_elem, includes_page_ids.
    rewrite handleSelectAll_page, handleSelectAll_on, uniq_elem.
    rewrite elem_of_app. tauto. }
  split_and!.
  - apply set_eq. intros i.
    rewrite elem_of_difference, !elem_of_list_to_set. apply Helem.
  - split.
    + intros Heq i Hi. apply (Helem i).
      apply (elem_of_list_to_set (C:=gset Z)). rewrite Heq.
      by apply elem_of_list_to_set.
    + intros Hdisj. apply set_eq. intros i.
      rewrite !elem_of_list_to_set, Helem. naive_solver.
  - intros Hnd Hdisj.
    rewrite handleSelectAll_off, handleSelectAll_page, handleSelectAll_on.
    destruct (uniq_app (selectedUsers s) (map id (currentUsers s)) Hnd)
      as (added & -> & Hadded).
    rewrite List.filter_app.
    rewrite (filter_all _ (selectedUsers s)), (filter_none _ added).
    + apply app_nil_r.
    + intros i Hi. apply negb_false_iff, includes_elem. by apply Hadded.
    + intros i Hi. apply includes_page_ids. by apply Hdisj.
Qed.

(** * The data loader (sections 4.1 and 7 of the specification) *)

Lemma render_error (s : State) (message : string) :
  loading s = false → error s = Some message → JsString.truthy message = true →
  render s = ErrorView message.
Proof. unfold render. by intros -> -> ->. Qed.

(** C4.  When the request resolves with a 2xx response whose body parses to
    something that is not an array, or to the empty array, the component
    shows the error view with the message "Invalid data format received
    from API" and not the table; the base list and the filtered list keep
    the values they had. *)
Theorem malformed_body_is_error (s : State) (response : Response) (data : JsonData) :
  ok response = true →
  body response = BodyResolves data →
  data = JNotArray ∨ data = JArray [] →
  let after := dispatch (FetchSettled (FetchResolves response)) s in
  render after = ErrorView "Invalid data format received from API"
  ∧ error after = Some "Invalid data format received from API"%string
  ∧ render after ≠ TableView
  ∧ loading after = false
  ∧ users after = users s
  ∧ filteredUsers after = filteredUsers s.
Proof.
  intros Hok Hbody Hdata after. subst after.
  rewrite (dispatch_FetchSettled_failed _ _ (ErrorObject dataFormatMessage)).
  - by split_and!.
  - unfold fetchUsers_try. rewrite Hok, Hbody. by destruct Hdata as [->| ->].
Qed.

Lemma ok_spec (response : Response) :
  ok response = true ↔ 200 ≤ status response ≤ 299.
Proof. unfold ok. rewrite andb_true_iff, !Z.leb_le. done. Qed.

(** C9.  When the request resolves with a status outside 200..299, the
    component shows the error view; the message is "HTTP error! status: "
    followed by the status code in decimal, so the code is a substring of
    the message.  Nothing is stored in the base list or the filtered
    list. *)
Theorem http_error_shows_status (s : State) (response : Response) :
  ¬ (200 ≤ status response ≤ 299) →
  let after := dispatch (FetchSettled (FetchResolves response)) s in
  let message := ("HTTP error! status: " +:+ JsString.ofNumber (status response))%string in
  render after = ErrorView message
  ∧ error after = Some message
  ∧ JsString.includes message (JsString.ofNumber (status response)) = true
  ∧ JsString.isSubstring (JsString.ofNumber (status response)) message
  ∧ loading after = false
  ∧ users after = users s
  ∧ filteredUsers after = filteredUsers s.
Proof.
  intros Hstatus after message. subst after message.
  assert (ok response = false) as Hok.
  { apply not_true_is_false. by rewrite ok_spec. }
  rewrite (dispatch_FetchSettled_failed _ _
             (ErrorObject (httpErrorMessage (status response)))).
  - split_and!; try done.
    + apply includes_suffix.
    + apply isSubstring_suffix.
  - unfold fetchUsers_try. by rewrite Hok.
Qed.

(** * The pagination engine (section 4.3 of the specification) *)

Lemma currentUsers_window (s : State) :
  1 ≤ currentPage s ≤ totalPages s →
  let n := Z.of_nat (length (filteredUsers s)) in
  let start := (currentPage s - 1) * usersPerPage in
  let stop := Z.min (start + usersPerPage) n in
  0 ≤ start < stop
  ∧ currentUsers s
      = take (Z.to_nat (stop - start)) (drop (Z.to_nat start) (filteredUsers s)).
Proof.
  intros Hp n start stop.
  pose proof (totalPages_bounds s) as Hb. fold n in Hb.
  unfold usersPerPage in *.
  assert (0 ≤ start < n) as Hstart by (subst start; lia).
  split; [subst stop; lia|].
  unfold currentUsers, indexOfFirstUser, indexOfLastUser, usersPerPage.
  rewrite slice_inside by lia. fold n.
  replace (Z.min (currentPage s * 5 - 5) n) with start by (subst start; lia).
  replace (Z.min (currentPage s * 5) n) with stop by (subst stop start; lia).
  done.
Qed.

(** C5.  With [totalPages] the ceiling of the filtered count over the page
    size 5, and the current page between 1 and [totalPages], the rows shown
    are the records of the filtered list at positions [start] (included) to
    [stop] (excluded), where [start = (currentPage - 1) * 5] and [stop] is
    [start + 5] cut down to the filtered count.  So at most 5 rows are
    shown, and on the last page exactly
    [filteredCount - 5 * (totalPages - 1)]. *)
Theorem page_window (s : State) :
  1 ≤ currentPage s ≤ totalPages s →
  let n := Z.of_nat (length (filteredUsers s)) in
  let start := (currentPage s - 1) * usersPerPage in
  let stop := Z.min (start + usersPerPage) n in
  usersPerPage = 5
  ∧ usersPerPage * (totalPages s - 1) < n ≤ usersPerPage * totalPages s
  ∧ 0 ≤ start < stop
  ∧ currentUsers s
      = take (Z.to_nat (stop - start)) (drop (Z.to_nat start) (filteredUsers s))
  ∧ (∀ k : nat, Z.of_nat k < stop - start →
       currentUsers s !! k = filteredUsers s !! (Z.to_nat start + k)%nat)
  ∧ Z.of_nat (length (currentUsers s)) = stop - start
  ∧ Z.of_nat (length (currentUsers s)) ≤ usersPerPage
  ∧ (currentPage s = totalPages s →
       Z.of_nat (length (currentUsers s)) = n - usersPerPage * (totalPages s - 1)).
Proof.
  intros Hp n start stop.
  destruct (currentUsers_window s Hp) as [Hstart Hwin].
  fold n start stop in Hstart, Hwin.
  pose proof (totalPages_bounds s) as Hb. fold n in Hb.
  assert (Z.of_nat (length (currentUsers s)) = stop - start) as Hlen.
  { rewrite Hwin, length_take, length_drop. fold n in Hb.
    subst stop n. lia. }
  split_and!.
  - done.
  - apply Hb.
  - apply Hb.
  - apply Hstart.
  - apply Hstart.
  - exact Hwin.
  - intros k Hk. rewrite Hwin, lookup_take_lt by lia. apply lookup_drop.
  - exact Hlen.
  - rewrite Hlen. subst stop. lia.
  - intros Hlast. rewrite Hlen. subst stop start. unfold usersPerPage in *. lia.
Qed.

Lemma setCurrentPage_same (s : State) : setCurrentPage (currentPage s) s = s.
Proof. by destruct s. Qed.

(** C8.  With at least one page and the current page between 1 and
    [totalPages]: a click on Previous changes nothing on page 1 and
    otherwise moves one page back; a click on Next changes nothing on the
    last page and otherwise moves one page forward; both change nothing but
    the page number, which stays between 1 and [totalPages]. *)
Theorem previous_next_clamped (s : State) :
  1 ≤ totalPages s →
  1 ≤ currentPage s ≤ totalPages s →
  let prev := dispatch ClickPrevious s in
  let next := dispatch ClickNext s in
  (currentPage s = 1 → prev = s)
  ∧ (currentPage s ≠ 1 → currentPage prev = currentPage s - 1)
  ∧ (currentPage s = totalPages s → next = s)
  ∧ (currentPage s ≠ totalPages s → currentPage next = currentPage s + 1)
  ∧ prev = setCurrentPage (currentPage prev) s
  ∧ next = setCurrentPage (currentPage next) s
  ∧ 1 ≤ currentPage prev ≤ totalPages prev
  ∧ 1 ≤ currentPage next ≤ totalPages next.
Proof.
  intros Htotal Hp prev next. subst prev next.
  rewrite dispatch_ClickPrevious, dispatch_ClickNext.
  unfold handlePrevious, handleNext.
  change (totalPages (setCurrentPage ?p s)) with (totalPages s).
  simpl currentPage.
  split_and!.
  - intros H1. rewrite Z.max_r by lia. rewrite <- H1 at 1. apply setCurrentPage_same.
  - intros Hn. lia.
  - intros Hl. rewrite Z.min_r by lia. rewrite <- Hl at 1. apply setCurrentPage_same.
  - intros Hn. lia.
  - done.
  - done.
  - lia.
  - lia.
  - lia.
  - lia.
Qed.

(** C10.  A click on Next stores the smaller of [currentPage + 1] and
    [totalPages], whatever the state.  With an empty filtered list
    [totalPages] is 0, so from page 1 the click would store 0; but then the
    pagination controls are not rendered and the click cannot happen. *)
Theorem next_stores_minimum (s : State) :
  currentPage (dispatch ClickNext s) = Z.min (currentPage s + 1) (totalPages s)
  ∧ (filteredUsers s = [] → currentPage s = 1 →
       totalPages s = 0 ∧ currentPage (dispatch ClickNext s) = 0)
  ∧ (filteredUsers s = [] →
       paginationShown s = false ∧ enabled ClickNext s = false).
Proof.
  rewrite dispatch_ClickNext. split_and!.
  - done.
  - intros Hnil Hp. simpl. rewrite (totalPages_nil s Hnil), Hp. done.
  - intros Hnil. unfold enabled, paginationShown. rewrite Hnil. simpl.
    by rewrite andb_false_r.
Qed.

(** * Beyond the listed claims *)

(** ** What each presentation state holds *)

Lemma filterEffect_frame (s : State) :
  users (filterEffect s) = users s
  ∧ selectedUsers (filterEffect s) = selectedUsers s
  ∧ searchTerm (filterEffect s) = searchTerm s
  ∧ loading (filterEffect s) = loading s
  ∧ error (filterEffect s) = error s.
Proof. unfold filterEffect. by destruct (_ =? _). Qed.

Lemma dispatch_SearchInput_frame (value : string) (s : State) :
  users (dispatch (SearchInput value) s) = users s
  ∧ selectedUsers (dispatch (SearchInput value) s) = selectedUsers s
  ∧ searchTerm (dispatch (SearchInput value) s) = value
  ∧ loading (dispatch (SearchInput value) s) = loading s
  ∧ error (dispatch (SearchInput value) s) = error s.
Proof.
  unfold dispatch, rerender. simpl handle. case_decide; [done|].
  destruct (filterEffect_frame (setSearchTerm value s)) as (-> & -> & -> & -> & ->).
  done.
Qed.

Lemma currentUsers_sublist (s : State) : sublist (currentUsers s) (filteredUsers s).
Proof. apply slice_sublist. Qed.

Lemma currentUsers_nil (s : State) : filteredUsers s = [] → currentUsers s = [].
Proof.
  intros Hnil. pose proof (currentUsers_sublist s) as H. rewrite Hnil in H.
  by apply sublist_nil_r.
Qed.

Lemma page_id_in_base (s : State) (i : Z) :
  invariant s → i ∈ map id (currentUsers s) → i ∈ map id (users s).
Proof.
  intros Hinv Hi. apply list_elem_of_fmap in Hi as (user & -> & Hu).
  apply list_elem_of_fmap. exists user. split; [done|].
  eapply elem_of_sublist in Hu; [|apply currentUsers_sublist].
  rewrite (inv_filtered _ Hinv) in Hu. by apply filter_elem in Hu as [? _].
Qed.

Lemma shape_initial : shape initialState.
Proof. split; simpl; try done; intros i Hi; by apply elem_of_nil in Hi. Qed.

Lemma shape_fetch (net : FetchResult) :
  shape (dispatch (FetchSettled net) initialState).
Proof.
  destruct (fetchUsers_try net (setError None (setLoading true initialState)))
    as [err|done] eqn:E.
  - rewrite (dispatch_FetchSettled_failed _ _ _ E).
    split; simpl; try done; intros i Hi; by apply elem_of_nil in Hi.
  - destruct (fetchUsers_try_inr _ _ _ E) as (items & Hne & ->).
    unfold dispatch. simpl handle. rewrite (fetchUsers_stored _ _ _ E).
    unfold rerender. rewrite decide_False by (simpl; naive_solver).
    rewrite filterEffect_nonempty by done.
    split; simpl; try done; intros i Hi; by apply elem_of_nil in Hi.
Qed.

Lemma shape_selection (sel : list Z) (s : State) :
  shape s → loading s = false →
  (∀ i, i ∈ sel → i ∈ map id (users s)) →
  (filteredUsers s = [] → selectedUsers s = [] → sel = []) →
  shape (setSelectedUsers sel s).
Proof.
  intros [Hl He Hd Hs] Hload Hsel Hnil. split; simpl; try done.
  - congruence.
  - intros message Hm. destruct (He message Hm) as (? & ? & ? & ? & ?).
    split_and!; try done. by apply Hnil.
Qed.

Lemma shape_page (page : Z) (s : State) :
  shape s → loading s = false → filteredUsers s ≠ [] →
  shape (setCurrentPage page s).
Proof.
  intros [Hl He Hd Hs] Hload Hne. split; simpl; try done.
  - congruence.
  - intros message Hm. by destruct (He message Hm) as (? & ? & ? & ? & ?).
Qed.

Lemma shape_search (value : string) (s : State) :
  shape s → invariant s → loading s = false →
  shape (dispatch (SearchInput value) s).
Proof.
  intros [Hl He Hd Hs] Hinv Hload.
  destruct (dispatch_SearchInput_frame value s) as (Hu & Hsel & Ht & Hlo & Her).
  pose proof (invariant_search value s Hinv Hload) as Hinv'.
  split.
  - rewrite Hlo. congruence.
  - rewrite Her, Hlo, Hu, Hsel. intros message Hm.
    destruct (He message Hm) as (? & Hnil & ? & ? & ?).
    assert (filteredUsers (dispatch (SearchInput value) s) = []) as Hf.
    { by rewrite (inv_filtered _ Hinv'), Hu, Hnil. }
    split_and!; try done. by apply (inv_page_empty _ Hinv').
  - rewrite Hlo, Her, Hu. apply Hd.
  - rewrite Hsel, Hu. apply Hs.
Qed.

Lemma shape_dispatch (e : Event) (s : State) :
  shape s → invariant s → enabled e s = true → shape (dispatch e s).
Proof.
  intros Hshape Hinv Hen.
  destruct e as [net|value|userId|checked| | |]; simpl in Hen.
  - rewrite (shape_loading _ Hshape Hen). apply shape_fetch.
  - apply shape_search; [done..|]. by apply tableShown_loaded.
  - apply andb_true_iff in Hen as [Htable Hrow].
    apply includes_elem in Hrow.
    rewrite dispatch_RowCheckbox.
    assert (filteredUsers s ≠ []) as Hne.
    { intros Hnil. rewrite (currentUsers_nil s Hnil) in Hrow.
      by apply elem_of_nil in Hrow. }
    unfold handleSelectUser.
    destruct (JsArray.includes (selectedUsers s) userId);
      (apply shape_selection; [done|by apply tableShown_loaded| |done]).
    + intros i Hi. apply filter_elem in Hi as [Hi _]. by apply (shape_selected _ Hshape).
    + intros i Hi. apply elem_of_app in Hi as [Hi|Hi].
      * by apply (shape_selected _ Hshape).
      * apply list_elem_of_singleton in Hi as ->. by apply page_id_in_base.
  - rewrite dispatch_SelectAllCheckbox.
    rewrite handleSelectAll_frame.
    apply shape_selection; [done|by apply tableShown_loaded| |].
    + intros i Hi. destruct checked.
      * rewrite handleSelectAll_on, uniq_elem in Hi.
        apply elem_of_app in Hi as [Hi|Hi];
          [by apply (shape_selected _ Hshape) | by apply page_id_in_base].
      * rewrite handleSelectAll_off in Hi. apply filter_elem in Hi as [Hi _].
        by apply (shape_selected _ Hshape).
    + intros Hnil Hsel. destruct checked.
      * by rewrite handleSelectAll_on, Hsel, (currentUsers_nil s Hnil).
      * by rewrite handleSelectAll_off, Hsel.
  - rewrite dispatch_ClickPrevious.
    apply andb_true_iff in Hen as [Hshown _].
    apply shape_page; [done| |by apply paginationShown_nonempty].
    apply tableShown_loaded. unfold paginationShown in Hshown.
    by apply andb_true_iff in Hshown as [? _].
  - rewrite dispatch_ClickNext.
    apply andb_true_iff in Hen as [Hshown _].
    apply shape_page; [done| |by apply paginationShown_nonempty].
    apply tableShown_loaded. unfold paginationShown in Hshown.
    by apply andb_true_iff in Hshown as [? _].
  - rewrite dispatch_ClickRetry. apply shape_initial.
Qed.

Lemma reachable_shape (s : State) : reachable s → shape s.
Proof.
  induction 1 as [|s e Hr IH Hen]; [apply shape_initial|].
  apply shape_dispatch; [done| |done]. by apply reachable_invariant.
Qed.

(** X4.  The mounted component is in one of three situations: still in its
    mount state, waiting for the request; loaded, with no error and a
    non-empty base list; or failed, with an error message stored and
    nothing else: no base list, no filtered list, no selection, page 1. *)
Theorem reachable_three_situations (s : State) :
  reachable s →
  (loading s = true ∧ s = initialState)
  ∨ (loading s = false ∧ error s = None ∧ users s ≠ [])
  ∨ (loading s = false ∧ ∃ message, error s = Some message
       ∧ users s = [] ∧ filteredUsers s = []
       ∧ selectedUsers s = [] ∧ currentPage s = 1).
Proof.
  intros Hr. pose proof (reachable_shape s Hr) as [Hl He Hd Hs].
  destruct (loading s) eqn:Hload; [left; split; [done | by apply Hl]|right].
  destruct (error s) as [message|] eqn:Herr.
  - right. split; [done|]. exists message.
    by destruct (He message eq_refl) as (? & ? & ? & ? & ?).
  - left. split_and!; [done..|]. by apply Hd.
Qed.

Lemma slice_first_page {A : Type} (arr : list A) :
  JsArray.slice arr (1 * usersPerPage - usersPerPage) (1 * usersPerPage) = take 5 arr.
Proof.
  rewrite slice_inside by done. unfold usersPerPage.
  replace (Z.to_nat (Z.min (1 * 5 - 5) (Z.of_nat (length arr)))) with 0%nat by lia.
  rewrite drop_0.
  destruct (decide (5 ≤ Z.of_nat (length arr))).
  - by replace (Z.to_nat _) with 5%nat by lia.
  - replace (Z.to_nat _) with (length arr) by lia.
    rewrite !take_ge; [done|lia|lia].
Qed.

(** X1.  When the pending request resolves with a 2xx response whose body is
    a non-empty array, that array becomes the base list and the filtered
    list (the search term is still empty, and the empty string is its own
    lower-case form), the table is shown on page 1 with the first five
    records, and there is no error, no search term and no selection. *)
Theorem load_stores_list (s : State) (response : Response) (items : list User) :
  toLowerCase "" = EmptyString →
  reachable s →
  loading s = true →
  ok response = true →
  body response = BodyResolves (JArray items) →
  items ≠ [] →
  let after := dispatch (FetchSettled (FetchResolves response)) s in
  users after = items
  ∧ filteredUsers after = items
  ∧ currentUsers after = take 5 items
  ∧ currentPage after = 1
  ∧ selectedUsers after = []
  ∧ searchTerm after = EmptyString
  ∧ error after = None
  ∧ render after = TableView.
Proof.
  intros Hempty Hr Hload Hok Hbody Hne after.
  assert (after = mkState items items [] "" 1 false None) as ->.
  { subst after. rewrite (shape_loading _ (reachable_shape s Hr) Hload).
    unfold dispatch. simpl handle. rewrite (fetchUsers_stored _ _ items).
    - unfold rerender. rewrite decide_False by (simpl; naive_solver).
      rewrite filterEffect_nonempty by done. simpl.
      by rewrite filter_empty_term.
    - unfold fetchUsers_try. rewrite Hok, Hbody. simpl. by destruct items. }
  split_and!; try done.
  unfold currentUsers, indexOfFirstUser, indexOfLastUser. simpl currentPage.
  simpl filteredUsers. apply slice_first_page.
Qed.

(** X2.  When the request is rejected, or a 2xx response has a body that
    cannot be parsed, the message of the thrown error is stored (for a
    thrown value that is not an [Error], the text "Failed to fetch users")
    and the base and filtered lists keep their values.  The error view shows
    that message, unless the message is empty: then the condition
    [if (error)] is false and the table view is rendered. *)
Theorem fetch_failure_message (s : State) (net : FetchResult) (err : Thrown) :
  net = FetchRejects err
  ∨ (∃ response, net = FetchResolves response ∧ ok response = true
                 ∧ body response = BodyRejects err) →
  let after := dispatch (FetchSettled net) s in
  error after = Some (errorMessage err)
  ∧ loading after = false
  ∧ users after = users s
  ∧ filteredUsers after = filteredUsers s
  ∧ (err = OtherValue → render after = ErrorView "Failed to fetch users")
  ∧ (∀ message, err = ErrorObject message → message ≠ EmptyString →
       render after = ErrorView message)
  ∧ (err = ErrorObject "" → render after = TableView).
Proof.
  intros Hnet after. subst after.
  rewrite (dispatch_FetchSettled_failed _ _ err).
  - split_and!; try done.
    + by intros ->.
    + intros message -> Hm. unfold render. simpl. by destruct message.
    + by intros ->.
  - destruct Hnet as [->|(response & -> & Hok & Hbody)]; [done|].
    unfold fetchUsers_try. by rewrite Hok, Hbody.
Qed.

Lemma dispatch_FetchSettled_loaded (net : FetchResult) (s : State) :
  loading (dispatch (FetchSettled net) s) = false.
Proof.
  unfold dispatch, rerender. simpl handle. case_decide; [done|].
  by destruct (filterEffect_frame (fetchUsers net s)) as (_ & _ & _ & -> & _).
Qed.

Lemma render_loaded (s : State) : loading s = false → render s ≠ LoadingView.
Proof.
  unfold render. intros ->.
  by destruct (error s) as [m|]; [destruct (JsString.truthy m)|].
Qed.

(** X5.  The presentation states form the machine Loading, then Error or
    Table.  In the loading view the only event is the settlement of the
    request, which leaves that view; in the error view the only event is
    Retry, which remounts the component; in the table view every event
    leaves the table view on screen. *)
Theorem view_transitions (s : State) (e : Event) :
  enabled e s = true →
  match render s with
  | LoadingView => (∃ net, e = FetchSettled net) ∧ render (dispatch e s) ≠ LoadingView
  | ErrorView _ => e = ClickRetry ∧ dispatch e s = initialState
  | TableView => render (dispatch e s) = TableView
  end.
Proof.
  intros Hen.
  assert (∀ sel, render (setSelectedUsers sel s) = render s) as Hsel by done.
  assert (∀ page, render (setCurrentPage page s) = render s) as Hpage by done.
  unfold enabled, paginationShown, tableShown in Hen.
  destruct (render s) as [|message|] eqn:Hview.
  - destruct e; simpl in Hen; try done.
    split; [by eexists|]. apply render_loaded, dispatch_FetchSettled_loaded.
  - destruct e; simpl in Hen; try done.
    + unfold render in Hview. by destruct (loading s).
    + split; [done|]. apply dispatch_ClickRetry.
  - destruct e as [net|value|userId|checked| | |]; simpl in Hen; try done.
    + unfold render in Hview. by destruct (loading s).
    + destruct (dispatch_SearchInput_frame value s) as (_ & _ & _ & Hl & He).
      unfold render in *. by rewrite Hl, He.
    + rewrite dispatch_RowCheckbox. unfold handleSelectUser.
      destruct (JsArray.includes (selectedUsers s) userId); apply Hsel.
    + rewrite dispatch_SelectAllCheckbox, handleSelectAll_frame. apply Hsel.
    + rewrite dispatch_ClickPrevious. apply Hpage.
    + rewrite dispatch_ClickNext. apply Hpage.
Qed.

(** ** Pages *)

(** For a range that starts at or after 0, the clamping of [slice] is the
    clamping that [take] and [drop] do on their own. *)
Lemma slice_take_drop {A : Type} (arr : list A) (start finish : Z) :
  0 ≤ start ≤ finish →
  JsArray.slice arr start finish
    = take (Z.to_nat (finish - start)) (drop (Z.to_nat start) arr).
Proof.
  intros Hr. rewrite slice_inside by lia.
  set (n := Z.of_nat (length arr)).
  destruct (decide (start ≤ n)) as [Hs|Hs].
  - rewrite (Z.min_l start n) by lia.
    destruct (decide (finish ≤ n)) as [Hf|Hf].
    + by rewrite Z.min_l by lia.
    + rewrite Z.min_r by lia.
      rewrite !take_ge; [done|rewrite length_drop; lia..].
  - rewrite (drop_ge arr (Z.to_nat start)) by lia.
    rewrite (drop_ge arr (Z.to_nat (Z.min start n))) by lia.
    by rewrite !take_nil.
Qed.

Lemma totalPages_nonneg (s : State) : 0 ≤ totalPages s.
Proof. pose proof (totalPages_bounds s). unfold usersPerPage in *. lia. Qed.

Lemma rowsOfPage_take_drop (s : State) (page : Z) :
  1 ≤ page →
  rowsOfPage s page
    = take 5 (drop (Z.to_nat (usersPerPage * (page - 1))) (filteredUsers s)).
Proof.
  intros Hp. unfold rowsOfPage, currentUsers, indexOfFirstUser, indexOfLastUser.
  simpl. unfold usersPerPage. rewrite slice_take_drop by lia.
  f_equal; [|f_equal]; lia.
Qed.

Lemma rows_up_to_page (s : State) (count : nat) :
  concat (map (rowsOfPage s) (map (fun k => Z.of_nat k) (seq 1 count)))
    = take (5 * count) (filteredUsers s).
Proof.
  induction count as [|count IH]; [done|].
  rewrite seq_S, !map_app, concat_app, IH.
  change (concat (map (rowsOfPage s) (map (fun k => Z.of_nat k) [(1 + count)%nat])))
    with (rowsOfPage s (Z.of_nat (1 + count)) ++ []).
  rewrite app_nil_r, rowsOfPage_take_drop by lia.
  replace (Z.to_nat (usersPerPage * (Z.of_nat (1 + count) - 1)))
    with (5 * count)%nat by (unfold usersPerPage; lia).
  rewrite take_take_drop. f_equal. lia.
Qed.

(** X8.  The pages 1 .. [totalPages] cut the filtered list into consecutive
    pieces: their rows, put one after the other, are the filtered list.  So
    every filtered record is shown on some page, and none twice. *)
Theorem pages_partition (s : State) :
  concat (map (rowsOfPage s) (pageNumbers (totalPages s))) = filteredUsers s.
Proof.
  unfold pageNumbers. rewrite rows_up_to_page. apply take_ge.
  pose proof (totalPages_bounds s). unfold usersPerPage in *. lia.
Qed.

(** X9.  Nothing clamps the page number when rows are computed: on page 0,
    and on any page after the last one, no row is shown. *)
Theorem page_out_of_range_empty (s : State) :
  currentPage s = 0 ∨ totalPages s < currentPage s →
  currentUsers s = [].
Proof.
  intros [H0|Hlate].
  - unfold currentUsers, indexOfFirstUser, indexOfLastUser, usersPerPage.
    rewrite H0. unfold JsArray.slice. simpl.
    by replace (Z.to_nat (_ - _)) with 0%nat by lia.
  - pose proof (totalPages_nonneg s). pose proof (totalPages_bounds s) as Hb.
    unfold usersPerPage in Hb.
    assert (currentUsers s = rowsOfPage s (currentPage s)) as ->
      by (unfold rowsOfPage; by rewrite setCurrentPage_same).
    rewrite rowsOfPage_take_drop by lia. unfold usersPerPage.
    rewrite drop_ge by lia. apply take_nil.
Qed.

Lemma currentUsers_length (s : State) :
  1 ≤ currentPage s ≤ totalPages s →
  Z.of_nat (length (currentUsers s))
    = Z.min (currentPage s * usersPerPage) (Z.of_nat (length (filteredUsers s)))
      - (currentPage s - 1) * usersPerPage
  ∧ 0 < Z.of_nat (length (currentUsers s)).
Proof.
  intros Hp. destruct (currentUsers_window s Hp) as [Hstart Hwin].
  cbv zeta in Hstart, Hwin. rewrite Hwin, length_take, length_drop.
  unfold usersPerPage in *. lia.
Qed.

Lemma reachable_page_range (s : State) :
  reachable s → filteredUsers s ≠ [] → 1 ≤ currentPage s ≤ totalPages s.
Proof. intros Hr. apply inv_page_range. by apply reachable_invariant. Qed.

(** X6.  In the table view of the mounted component exactly one of two
    blocks appears under the table: the no-match message when the filtered
    list is empty, the pagination bar when it is not.  In particular a
    non-empty filtered list is never shown with an empty page. *)
Theorem no_results_or_pagination (s : State) :
  reachable s →
  tableShown s = true →
  noResultsShown s = negb (paginationShown s)
  ∧ (noResultsShown s = true ↔ filteredUsers s = [])
  ∧ (filteredUsers s ≠ [] → currentUsers s ≠ []).
Proof.
  intros Hr Htable.
  assert (filteredUsers s ≠ [] → 0 < Z.of_nat (length (currentUsers s))) as Hrows.
  { intros Hne. apply currentUsers_length. by apply reachable_page_range. }
  unfold noResultsShown, paginationShown.
  rewrite Htable, (tableShown_loaded s Htable). simpl. rewrite andb_true_r.
  destruct (filteredUsers s) as [|u rest] eqn:Hf.
  - rewrite (currentUsers_nil s Hf). by split_and!.
  - specialize (Hrows ltac:(done)).
    split_and!.
    + simpl length. destruct (Z.eqb_spec (Z.of_nat (length (currentUsers s))) 0); [lia|].
      by destruct (Z.ltb_spec 0 (Z.of_nat (S (length rest)))); [|lia].
    + split; [|done]. intros H. apply Z.eqb_eq in H. lia.
    + intros _ Hnil. rewrite Hnil in Hrows. simpl in Hrows. lia.
Qed.

(** X7.  When the pagination bar of the mounted component is shown, the text
    "Showing a to b of n users" is accurate: [1 ≤ a ≤ b ≤ n], the page shows
    [b - a + 1] rows, and these are the filtered records at the 1-based
    positions [a] to [b]. *)
Theorem showing_range_accurate (s : State) :
  reachable s →
  paginationShown s = true →
  1 ≤ showingFrom s ≤ showingTo s
  ∧ showingTo s ≤ Z.of_nat (length (filteredUsers s))
  ∧ Z.of_nat (length (currentUsers s)) = showingTo s - showingFrom s + 1
  ∧ ∀ k : nat, (k < length (currentUsers s))%nat →
      currentUsers s !! k
        = filteredUsers s !! (Z.to_nat (showingFrom s - 1) + k)%nat.
Proof.
  intros Hr Hshown.
  pose proof (reachable_page_range s Hr (paginationShown_nonempty s Hshown)) as Hp.
  destruct (currentUsers_length s Hp) as [Hlen Hpos].
  destruct (currentUsers_window s Hp) as [Hstart Hwin]. cbv zeta in Hstart, Hwin.
  unfold showingFrom, showingTo, indexOfFirstUser, indexOfLastUser, usersPerPage in *.
  split_and!; try lia.
  intros k Hk. rewrite Hwin, lookup_take_lt by lia. rewrite lookup_drop.
  f_equal. lia.
Qed.

(** X11.  When the pagination bar of the mounted component is shown,
    Previous is disabled exactly when the shown range starts at record 1,
    Next is disabled exactly when it ends at the last filtered record, and
    both are disabled exactly when there are at most five filtered
    records. *)
Theorem buttons_disabled_at_ends (s : State) :
  reachable s →
  paginationShown s = true →
  (previousDisabled s = true ↔ showingFrom s = 1)
  ∧ (nextDisabled s = true ↔ showingTo s = Z.of_nat (length (filteredUsers s)))
  ∧ (previousDisabled s && nextDisabled s = true
       ↔ Z.of_nat (length (filteredUsers s)) ≤ usersPerPage).
Proof.
  intros Hr Hshown.
  pose proof (reachable_page_range s Hr (paginationShown_nonempty s Hshown)) as Hp.
  pose proof (totalPages_bounds s) as Hb.
  unfold previousDisabled, nextDisabled, showingFrom, showingTo,
    indexOfFirstUser, indexOfLastUser, usersPerPage in *.
  rewrite andb_true_iff, !Z.eqb_eq. lia.
Qed.

(** X10.  Next and Previous undo each other away from the ends: from a page
    that is not the last, Next then Previous gives back the state; from a
    page that is not the first, Previous then Next does. *)
Theorem next_previous_round_trip (s : State) :
  (1 ≤ currentPage s < totalPages s →
     dispatch ClickPrevious (dispatch ClickNext s) = s)
  ∧ (1 < currentPage s ≤ totalPages s →
     dispatch ClickNext (dispatch ClickPrevious s) = s).
Proof.
  rewrite !dispatch_ClickPrevious, !dispatch_ClickNext.
  unfold handlePrevious, handleNext.
  change (totalPages (setCurrentPage ?p s)) with (totalPages s).
  destruct s as [us fs sel term page ld er]. simpl.
  unfold setCurrentPage. simpl.
  split; intros Hp; f_equal; lia.
Qed.

(** ** Searching *)

Lemma append_assoc3 (a b c : string) : ((a +:+ b) +:+ c = a +:+ (b +:+ c))%string.
Proof.
  induction a as [|x a IH]; [done|].
  change (String x ((a +:+ b) +:+ c) = String x (a +:+ (b +:+ c))). by rewrite IH.
Qed.

Lemma isSubstring_trans (a b c : string) :
  JsString.isSubstring a b → JsString.isSubstring b c → JsString.isSubstring a c.
Proof.
  intros (p1 & q1 & ->) (p2 & q2 & ->).
  exists (p2 +:+ p1)%string, (q1 +:+ q2)%string.
  by rewrite !append_assoc3.
Qed.

Lemma matchesSearch_narrows (short long : string) (user : User) :
  JsString.isSubstring (toLowerCase short) (toLowerCase long) →
  matchesSearch long user = true → matchesSearch short user = true.
Proof.
  intros Hsub. rewrite !matchesSearch_spec. cbv zeta.
  intros [H|[H|[H|H]]]; [left|right; left|right; right; left|right; right; right];
    by apply (isSubstring_trans _ _ _ Hsub).
Qed.

Lemma filter_sublist_mono {A : Type} (f g : A → bool) (arr : list A) :
  (∀ x, f x = true → g x = true) →
  sublist (List.filter f arr) (List.filter g arr).
Proof.
  intros Himp. induction arr as [|a arr IH]; simpl; [constructor|].
  destruct (f a) eqn:Hf.
  - rewrite (Himp a Hf). by constructor.
  - destruct (g a); [by constructor|done].
Qed.

Lemma dispatch_SearchInput_filtered (value : string) (s : State) :
  invariant s →
  filteredUsers (dispatch (SearchInput value) s)
    = List.filter (matchesSearch value) (users s).
Proof.
  intros Hinv. destruct (decide (value = searchTerm s)) as [->|Hne].
  - unfold dispatch. rewrite rerender_same by done. apply (inv_filtered _ Hinv).
  - rewrite dispatch_SearchInput_changed by done.
    destruct (users s) as [|u rest] eqn:Hu.
    + rewrite filterEffect_empty by done. simpl.
      by rewrite (inv_filtered _ Hinv), Hu.
    + rewrite filterEffect_nonempty by (simpl; by rewrite Hu). simpl. by rewrite Hu.
Qed.

(** X14.  Typing in the search box of the mounted component replaces the
    filtered list by the base list filtered with the typed text and touches
    neither the base list nor the selection, so an id stays selected when
    its row is filtered out.  Clearing the box brings back the whole base
    list.  After a change of the text the rows shown are the first five
    matches. *)
Theorem search_result_and_frame (s : State) (value : string) :
  reachable s →
  let after := dispatch (SearchInput value) s in
  filteredUsers after = List.filter (matchesSearch value) (users s)
  ∧ users after = users s
  ∧ selectedUsers after = selectedUsers s
  ∧ (toLowerCase "" = EmptyString →
       value = EmptyString → filteredUsers after = users s)
  ∧ (value ≠ searchTerm s → currentUsers after = take 5 (filteredUsers after)).
Proof.
  intros Hr after. pose proof (reachable_invariant s Hr) as Hinv.
  destruct (dispatch_SearchInput_frame value s) as (Hu & Hsel & _).
  pose proof (dispatch_SearchInput_filtered value s Hinv) as Hf.
  split_and!; try done.
  - intros Hempty ->. subst after. rewrite Hf. by apply filter_empty_term.
  - intros Hne.
    assert (currentPage after = 1) as Hp.
    { subst after. rewrite dispatch_SearchInput_changed by done.
      destruct (users s) as [|u rest] eqn:Hus.
      - rewrite filterEffect_empty by done. simpl.
        apply (inv_page_empty _ Hinv). by rewrite (inv_filtered _ Hinv), Hus.
      - by rewrite filterEffect_nonempty by (simpl; by rewrite Hus). }
    unfold currentUsers, indexOfFirstUser, indexOfLastUser. rewrite Hp.
    apply slice_first_page.
Qed.

(** X12.  When the lower-case form of the text in the search box occurs in
    the lower-case form of the new text, the new filtered list is a
    sub-sequence of the old one: no row comes back. *)
Theorem search_narrows (s : State) (value : string) :
  reachable s →
  JsString.isSubstring (toLowerCase (searchTerm s)) (toLowerCase value) →
  sublist (filteredUsers (dispatch (SearchInput value) s)) (filteredUsers s).
Proof.
  intros Hr Hsub. pose proof (reachable_invariant s Hr) as Hinv.
  rewrite (dispatch_SearchInput_filtered value s Hinv), (inv_filtered _ Hinv).
  apply filter_sublist_mono. intros user. by apply matchesSearch_narrows.
Qed.

(** ** Selecting *)

Lemma fold_addOnce_known (arr seen : list Z) :
  (∀ x, x ∈ arr → x ∈ seen) → fold_left JsArray.addOnce arr seen = seen.
Proof.
  induction arr as [|a arr IH]; intros Hin; simpl; [done|].
  unfold JsArray.addOnce at 2.
  rewrite (proj2 (includes_elem seen a)) by (apply Hin; left).
  apply IH. intros x Hx. apply Hin. by right.
Qed.

Lemma uniq_absorbs (sel extra : list Z) :
  NoDup sel → (∀ x, x ∈ extra → x ∈ sel) → JsArray.uniq (sel ++ extra) = sel.
Proof.
  intros Hnd Hin. rewrite uniq_fold, fold_left_app.
  rewrite <- (uniq_fold sel), uniq_id by done.
  by apply fold_addOnce_known.
Qed.

Lemma filter_twice {A : Type} (keep : A → bool) (arr : list A) :
  List.filter keep (List.filter keep arr) = List.filter keep arr.
Proof. apply filter_all. intros x Hx. by apply filter_elem in Hx as [_ ?]. Qed.

Lemma setSelectedUsers_same (s : State) : setSelectedUsers (selectedUsers s) s = s.
Proof. by destruct s. Qed.

(** X15.  Ticking the header checkbox twice is the same as ticking it once,
    and likewise for unticking: the second event changes nothing. *)
Theorem select_all_idempotent (s : State) (checked : bool) :
  dispatch (SelectAllCheckbox checked) (dispatch (SelectAllCheckbox checked) s)
    = dispatch (SelectAllCheckbox checked) s.
Proof.
  rewrite !dispatch_SelectAllCheckbox.
  assert (selectedUsers (handleSelectAll checked (handleSelectAll checked s))
          = selectedUsers (handleSelectAll checked s)) as Hsel.
  { destruct checked.
    - rewrite handleSelectAll_on, handleSelectAll_page, handleSelectAll_on.
      apply uniq_absorbs; [apply uniq_NoDup|].
      intros x Hx. apply uniq_elem, elem_of_app. by right.
    - rewrite handleSelectAll_off, handleSelectAll_page, handleSelectAll_off.
      apply filter_twice. }
  rewrite (handleSelectAll_frame checked (handleSelectAll checked s)), Hsel.
  apply setSelectedUsers_same.
Qed.

Lemma isAllSelected_spec (s : State) :
  isAllSelected s = true ↔
    currentUsers s ≠ [] ∧ ∀ user, user ∈ currentUsers s → id user ∈ selectedUsers s.
Proof.
  unfold isAllSelected. rewrite andb_true_iff, forallb_forall.
  split.
  - intros [Hlen Hall]. split.
    + intros Hnil. by rewrite Hnil in Hlen.
    + intros user Hu. apply includes_elem, Hall.
      by apply list_elem_of_In.
  - intros [Hne Hall]. split.
    + destruct (currentUsers s); [done|]. simpl length. apply Z.ltb_lt. lia.
    + intros user Hu. apply includes_elem, Hall.
      by apply list_elem_of_In.
Qed.

(** X16.  The header checkbox shows what was just done to the page: after
    unticking it, it is unticked; after ticking it, it is ticked, provided
    the page has rows (on an empty page it stays unticked). *)
Theorem header_checkbox_follows (s : State) :
  isAllSelected (dispatch (SelectAllCheckbox false) s) = false
  ∧ (isAllSelected (dispatch (SelectAllCheckbox true) s) = true
       ↔ currentUsers s ≠ []).
Proof.
  rewrite !dispatch_SelectAllCheckbox. split.
  - apply not_true_is_false. rewrite isAllSelected_spec, handleSelectAll_page.
    intros [Hne Hall]. destruct (currentUsers s) as [|u rest] eqn:Hcur; [done|].
    specialize (Hall u ltac:(left)).
    rewrite handleSelectAll_off, filter_elem, includes_page_ids, Hcur in Hall.
    destruct Hall as [_ Hout]. apply Hout. simpl. left.
  - rewrite isAllSelected_spec, handleSelectAll_page. split; [by intros [? _]|].
    intros Hne. split; [done|]. intros user Hu.
    rewrite handleSelectAll_on, uniq_elem, elem_of_app. right.
    apply list_elem_of_fmap. by exists user.
Qed.

Lemma handleSelectUser_page (userId : Z) (s : State) :
  currentUsers (handleSelectUser userId s) = currentUsers s.
Proof. unfold handleSelectUser. by destruct (JsArray.includes _ _). Qed.

(** X17.  A row checkbox flips the tick of its own row and leaves the rows
    with other ids as they were; unticking a row of the current page also
    unticks the header checkbox. *)
Theorem row_checkbox_display (s : State) (user : User) :
  let after := dispatch (RowCheckbox (id user)) s in
  isSelected after user = negb (isSelected s user)
  ∧ (∀ other, id other ≠ id user → isSelected after other = isSelected s other)
  ∧ (user ∈ currentUsers s → isSelected s user = true →
       isAllSelected after = false).
Proof.
  intros after. subst after. rewrite dispatch_RowCheckbox.
  assert (∀ u, isSelected (handleSelectUser (id user) s) u = true
               ↔ (id u = id user ∧ id user ∉ selectedUsers s)
                 ∨ (id u ≠ id user ∧ id u ∈ selectedUsers s)) as Hsel.
  { intros u. unfold isSelected.
    rewrite includes_elem. apply handleSelectUser_elem. }
  assert (∀ u, isSelected s u = true ↔ id u ∈ selectedUsers s) as Hold.
  { intros u. apply includes_elem. }
  split_and!.
  - apply eq_true_iff_eq. rewrite Hsel, negb_true_iff.
    rewrite <- not_true_iff_false, Hold.
    destruct (decide (id user ∈ selectedUsers s)); naive_solver.
  - intros other Hne. apply eq_true_iff_eq. rewrite Hsel, Hold. naive_solver.
  - intros Hrow Hticked. apply not_true_is_false.
    rewrite isAllSelected_spec, handleSelectUser_page. intros [_ Hall].
    specialize (Hall user Hrow). apply handleSelectUser_elem in Hall.
    apply Hold in Hticked. naive_solver.
Qed.

Lemma NoDup_subset_length (sel ids : list Z) :
  NoDup sel → (∀ i, i ∈ sel → i ∈ ids) → (length sel ≤ length ids)%nat.
Proof. intros Hnd Hsub. by apply submseteq_length, NoDup_submseteq. Qed.

(** X18.  In the mounted component every selected id is the id of a record
    of the base list, no id is stored twice, and so the count printed in
    "n user(s) selected" is the number of distinct selected ids and never
    exceeds the number of loaded records. *)
Theorem selection_within_base (s : State) :
  reachable s →
  (∀ i, i ∈ selectedUsers s → ∃ user, user ∈ users s ∧ id user = i)
  ∧ selectedCount s = Z.of_nat (size (list_to_set (selectedUsers s) : gset Z))
  ∧ selectedCount s ≤ Z.of_nat (length (users s)).
Proof.
  intros Hr.
  pose proof (inv_selected _ (reachable_invariant s Hr)) as Hnd.
  pose proof (shape_selected _ (reachable_shape s Hr)) as Hin.
  split_and!.
  - intros i Hi. apply Hin, list_elem_of_fmap in Hi as (user & -> & Hu). by exists user.
  - unfold selectedCount. by rewrite size_list_to_set.
  - unfold selectedCount. rewrite <- (length_map id (users s)).
    apply inj_le. by apply NoDup_subset_length.
Qed.

Lemma reachable_page_positive (s : State) : reachable s → 1 ≤ currentPage s.
Proof.
  intros Hr. pose proof (reachable_invariant s Hr) as Hinv.
  destruct (filteredUsers s) eqn:Hf.
  - by rewrite (inv_page_empty _ Hinv Hf).
  - apply (inv_page_range _ Hinv). by rewrite Hf.
Qed.

Lemma reachable_page_size (s : State) :
  reachable s → (length (currentUsers s) ≤ 5)%nat.
Proof.
  intros Hr. pose proof (reachable_page_positive s Hr) as Hp.
  pose proof (slice_length_le (filteredUsers s)
                (indexOfFirstUser s) (indexOfLastUser s)) as H.
  unfold indexOfFirstUser, indexOfLastUser, usersPerPage in H.
  unfold currentUsers, indexOfFirstUser, indexOfLastUser, usersPerPage.
  lia.
Qed.

(** X19.  In the mounted component, ticking the header checkbox keeps the
    stored selection as it is and appends behind it the ids of the page
    that were not selected yet, each once; so the selection grows by at
    most five ids. *)
Theorem select_all_appends (s : State) :
  reachable s →
  ∃ added,
    selectedUsers (dispatch (SelectAllCheckbox true) s) = selectedUsers s ++ added
    ∧ NoDup added
    ∧ (∀ i, i ∈ added ↔ i ∈ map id (currentUsers s) ∧ i ∉ selectedUsers s)
    ∧ (length added ≤ 5)%nat.
Proof.
  intros Hr. pose proof (inv_selected _ (reachable_invariant s Hr)) as Hnd.
  rewrite dispatch_SelectAllCheckbox, handleSelectAll_on.
  pose proof (uniq_NoDup (selectedUsers s ++ map id (currentUsers s)))
    as Huniq.
  pose proof (uniq_elem (selectedUsers s ++ map id (currentUsers s)))
    as Helem.
  destruct (uniq_app (selectedUsers s) (map id (currentUsers s)) Hnd)
    as (added & Heq & Hsub).
  rewrite Heq in Huniq, Helem. exists added.
  apply NoDup_app in Huniq as (_ & Hdisj & Hadded).
  split_and!; [done..| |].
  - intros i. split.
    + intros Hi. split; [by apply Hsub|]. intros Hsel. by apply (Hdisj i).
    + intros [Hpage Hout]. specialize (proj2 (Helem i)).
      rewrite !elem_of_app. naive_solver.
  - etrans; [|apply (reachable_page_size s Hr)].
    rewrite <- (length_map id (currentUsers s)).
    by apply NoDup_subset_length.
Qed.

Lemma filter_out_length (sel : list Z) (x : Z) :
  NoDup sel → x ∈ sel →
  S (length (List.filter (fun i => negb (i =? x)) sel)) = length sel.
Proof.
  induction 1 as [|a sel Ha Hnd IH]; intros Hin; [by apply elem_of_nil in Hin|].
  simpl. destruct (Z.eqb_spec a x) as [->|Hne]; simpl.
  - f_equal. f_equal. apply filter_all. intros i Hi.
    apply differs_from. intros ->. done.
  - f_equal. apply IH. apply elem_of_cons in Hin as [->|Hin]; done.
Qed.

(** X20.  In the mounted component a row checkbox changes the count printed
    in "n user(s) selected" by exactly one: up when the row was not
    selected, down when it was. *)
Theorem row_checkbox_count (s : State) (userId : Z) :
  reachable s →
  selectedCount (dispatch (RowCheckbox userId) s)
    = if JsArray.includes (selectedUsers s) userId
      then selectedCount s - 1
      else selectedCount s + 1.
Proof.
  intros Hr. pose proof (inv_selected _ (reachable_invariant s Hr)) as Hnd.
  rewrite dispatch_RowCheckbox. unfold selectedCount.
  destruct (JsArray.includes (selectedUsers s) userId) eqn:E.
  - apply includes_elem in E.
    rewrite handleSelectUser_present by done.
    pose proof (filter_out_length _ _ Hnd E). lia.
  - apply includes_not_elem in E.
    rewrite handleSelectUser_absent, length_app by done. simpl. lia.
Qed.

End Component.

(** * Sample runs

    The component run on ASCII sample data, with [asciiLowerCase] for
    [toLowerCase]. *)

Local Abbreviation lower := JsString.asciiLowerCase.
Local Abbreviation loaded := (loadedState lower).
Local Abbreviation page3 := (page3State lower).
Local Abbreviation searched := (searchedState lower).
Local Abbreviation otherPage := (otherPageState lower).
Local Abbreviation emptyResult := (emptyResultState lower).
Local Abbreviation failed := (failedState lower).
Local Abbreviation pageOneSelected := (pageOneSelectedState lower).

Lemma reachable_loadedState : reachable lower loaded.
Proof. apply (reachable_run lower _ _ (reachable_mount lower)). by vm_compute. Qed.

Lemma reachable_page3State : reachable lower page3.
Proof. apply (reachable_run lower _ _ reachable_loadedState). by vm_compute. Qed.

Lemma reachable_searchedState : reachable lower searched.
Proof.
  apply (reachable_dispatch lower); [apply reachable_page3State | by vm_compute].
Qed.

Lemma filtered_list_exact_witness :
  reachable lower searched
  ∧ lower "" = EmptyString
  ∧ searchTerm searched = "A"%string
  ∧ map id (filteredUsers searched) = [2; 7; 8; 9; 10; 11]
  ∧ filteredUsers searched
      = List.filter (matchesSearch lower (searchTerm searched)) (users searched)
  ∧ filteredUsers loaded = users loaded.
Proof.
  split; [apply reachable_searchedState|].
  split; [done|]. split; [by vm_compute|]. split; [by vm_compute|].
  split.
  - apply (filtered_list_exact lower searched reachable_searchedState).
  - destruct (filtered_list_exact lower loaded reachable_loadedState)
      as (_ & _ & _ & Hempty & _).
    apply Hempty; reflexivity.
Defined.

Lemma search_resets_page_witness :
  reachable lower page3
  ∧ "A"%string ≠ searchTerm page3
  ∧ currentPage page3 = 3
  ∧ currentPage (dispatch lower (SearchInput "A") page3) = 1.
Proof.
  assert ("A"%string ≠ searchTerm page3) as Hne by (by vm_compute).
  split; [apply reachable_page3State|].
  split; [exact Hne|].
  split; [by vm_compute|].
  apply (search_resets_page lower page3 "A" reachable_page3State Hne).
Defined.

Lemma toggle_selection_witness :
  11 ∈ selectedUsers page3
  ∧ 11 ∉ selectedUsers (dispatch lower (RowCheckbox 11) page3).
Proof.
  assert (11 ∈ selectedUsers page3) as Hin by (vm_compute; left).
  split; [exact Hin|].
  exact (proj1 (proj2 (toggle_selection lower page3 11)) Hin).
Defined.

Lemma select_all_round_trip_witness :
  let s := otherPage in
  NoDup (selectedUsers s)
  ∧ (∀ i, i ∈ selectedUsers s → i ∉ map id (currentUsers s))
  ∧ selectedUsers s = [7]
  ∧ selectedUsers
      (dispatch lower (SelectAllCheckbox false) (dispatch lower (SelectAllCheckbox true) s))
    = selectedUsers s.
Proof.
  cbv zeta.
  assert (NoDup (selectedUsers otherPage)) as Hnd
    by (apply (bool_decide_unpack _); by vm_compute).
  assert (∀ i, i ∈ selectedUsers otherPage →
               i ∉ map id (currentUsers otherPage)) as Hdisj.
  { intros i Hi. vm_compute in Hi. apply list_elem_of_singleton in Hi as ->.
    apply (bool_decide_unpack _). by vm_compute. }
  split; [exact Hnd|]. split; [exact Hdisj|]. split; [by vm_compute|].
  exact (proj2 (proj2 (select_all_round_trip lower otherPage)) Hnd Hdisj).
Defined.

(** C3, as the specification words it, fails: on page 3 of twelve loaded
    records with id 11 selected, ticking and unticking the header checkbox
    leaves id 11, which is on the page, unselected. *)
Lemma select_all_round_trip_counterexample :
  let after :=
    dispatch lower (SelectAllCheckbox false)
      (dispatch lower (SelectAllCheckbox true) page3) in
  reachable lower page3
  ∧ map id (currentUsers page3) = [11; 12]
  ∧ selectedUsers page3 = [11]
  ∧ selectedUsers after = []
  ∧ ¬ (list_to_set (selectedUsers after)
         =@{gset Z} list_to_set (selectedUsers page3))
  ∧ ¬ (∀ i, i ∈ map id (currentUsers page3) →
         (i ∈ selectedUsers after ↔ i ∈ selectedUsers page3)).
Proof.
  cbv zeta. split_and!.
  - apply reachable_page3State.
  - by vm_compute.
  - by vm_compute.
  - by vm_compute.
  - intros Heq.
    assert (11 ∈@{gset Z} list_to_set (selectedUsers page3)) as Hin
      by (apply elem_of_list_to_set; vm_compute; left).
    rewrite <- Heq in Hin. apply elem_of_list_to_set in Hin.
    vm_compute in Hin. by apply elem_of_nil in Hin.
  - intros H. specialize (H 11).
    assert (11 ∈ selectedUsers page3) as Hin by (vm_compute; left).
    apply H in Hin; [|vm_compute; left].
    vm_compute in Hin. by apply elem_of_nil in Hin.
Qed.

Lemma malformed_body_is_error_witness :
  let response := mkResponse 200 (BodyResolves (JArray [])) in
  let after := dispatch lower (FetchSettled (FetchResolves response)) initialState in
  ok response = true
  ∧ render after = ErrorView "Invalid data format received from API"
  ∧ users after = [] ∧ filteredUsers after = [].
Proof.
  cbv zeta. split; [done|].
  pose proof (malformed_body_is_error lower initialState
                (mkResponse 200 (BodyResolves (JArray []))) (JArray [])
                eq_refl eq_refl (or_intror eq_refl)) as H.
  cbv zeta in H. destruct H as (Hview & _ & _ & _ & Hu & Hf).
  split; [exact Hview|]. split; [exact Hu | exact Hf].
Defined.

Lemma http_error_shows_status_witness :
  let response := mkResponse 500 (BodyRejects OtherValue) in
  let after := dispatch lower (FetchSettled (FetchResolves response)) initialState in
  ¬ (200 ≤ status response ≤ 299)
  ∧ render after = ErrorView "HTTP error! status: 500"
  ∧ JsString.includes "HTTP error! status: 500" "500" = true.
Proof.
  cbv zeta.
  assert (¬ (200 ≤ status (mkResponse 500 (BodyRejects OtherValue)) ≤ 299)) as Hs
    by (simpl; lia).
  split; [exact Hs|].
  pose proof (http_error_shows_status lower initialState
                (mkResponse 500 (BodyRejects OtherValue)) Hs) as H.
  cbv zeta in H. destruct H as (Hview & _ & Hinc & _).
  split; [exact Hview | exact Hinc].
Defined.

Lemma page_window_witness :
  1 ≤ currentPage page3 ≤ totalPages page3
  ∧ totalPages page3 = 3
  ∧ Z.of_nat (length (currentUsers page3))
      = Z.of_nat (length (filteredUsers page3))
        - usersPerPage * (totalPages page3 - 1)
  ∧ Z.of_nat (length (currentUsers page3)) = 2.
Proof.
  assert (1 ≤ currentPage page3 ≤ totalPages page3) as Hp
    by (vm_compute; split; discriminate).
  split; [exact Hp|]. split; [by vm_compute|].
  pose proof (page_window page3 Hp) as H. cbv zeta in H.
  destruct H as (_ & _ & _ & _ & _ & _ & _ & Hlast).
  split; [apply Hlast; by vm_compute | by vm_compute].
Defined.

Lemma previous_next_clamped_witness :
  1 ≤ totalPages page3
  ∧ 1 ≤ currentPage page3 ≤ totalPages page3
  ∧ currentPage page3 = 3
  ∧ dispatch lower ClickNext page3 = page3
  ∧ currentPage (dispatch lower ClickPrevious page3) = 2.
Proof.
  assert (1 ≤ totalPages page3) as Ht by (vm_compute; discriminate).
  assert (1 ≤ currentPage page3 ≤ totalPages page3) as Hp
    by (vm_compute; split; discriminate).
  split; [exact Ht|]. split; [exact Hp|]. split; [by vm_compute|].
  pose proof (previous_next_clamped lower page3 Ht Hp) as H. cbv zeta in H.
  destruct H as (_ & Hprev & Hnext & _).
  split; [apply Hnext; by vm_compute|].
  rewrite Hprev; by vm_compute.
Defined.

Lemma next_stores_minimum_witness :
  reachable lower emptyResult
  ∧ filteredUsers emptyResult = []
  ∧ currentPage emptyResult = 1
  ∧ currentPage (dispatch lower ClickNext emptyResult) = 0
  ∧ enabled ClickNext emptyResult = false.
Proof.
  assert (filteredUsers emptyResult = []) as Hnil by (by vm_compute).
  assert (currentPage emptyResult = 1) as Hp by (by vm_compute).
  split; [apply (reachable_dispatch lower); [apply reachable_loadedState | by vm_compute]|].
  split; [exact Hnil|]. split; [exact Hp|].
  destruct (next_stores_minimum lower emptyResult) as (_ & Hzero & Hhidden).
  split; [apply (Hzero Hnil Hp) | apply (Hhidden Hnil)].
Defined.

Lemma reachable_three_situations_witness :
  reachable lower failed
  ∧ error failed = Some "HTTP error! status: 500"%string
  ∧ users failed = [].
Proof.
  assert (reachable lower failed) as Hr
    by (apply (reachable_dispatch lower); [apply (reachable_mount lower) | by vm_compute]).
  split; [exact Hr|]. split; [by vm_compute|].
  destruct (reachable_three_situations lower failed Hr)
    as [[Hl _]|[(_ & He & _)|(_ & message & _ & Hu & _)]].
  - by vm_compute in Hl.
  - by vm_compute in He.
  - exact Hu.
Defined.

Lemma load_stores_list_witness :
  loading initialState = true
  ∧ twelveUsers ≠ []
  ∧ map id (currentUsers (dispatch lower (okResponse twelveUsers) initialState))
      = [1; 2; 3; 4; 5].
Proof.
  split; [done|]. split; [done|].
  pose proof (load_stores_list lower initialState
                (mkResponse 200 (BodyResolves (JArray twelveUsers))) twelveUsers
                eq_refl (reachable_mount lower) eq_refl eq_refl eq_refl
                ltac:(discriminate)) as H.
  cbv zeta in H. destruct H as (_ & _ & Hrows & _).
  unfold okResponse. rewrite Hrows. by vm_compute.
Defined.

Lemma fetch_failure_message_witness :
  render (dispatch lower (FetchSettled (FetchRejects OtherValue)) initialState)
    = ErrorView "Failed to fetch users"
  ∧ render (dispatch lower (FetchSettled (FetchRejects (ErrorObject ""))) initialState)
    = TableView.
Proof.
  split.
  - exact (proj1 (proj2 (proj2 (proj2 (proj2
      (fetch_failure_message lower initialState (FetchRejects OtherValue) OtherValue
         (or_introl eq_refl)))))) eq_refl).
  - exact (proj2 (proj2 (proj2 (proj2 (proj2 (proj2
      (fetch_failure_message lower initialState (FetchRejects (ErrorObject ""))
         (ErrorObject "") (or_introl eq_refl))))))) eq_refl).
Defined.

Lemma view_transitions_witness :
  enabled ClickRetry failed = true
  ∧ dispatch lower ClickRetry failed = initialState.
Proof.
  assert (enabled ClickRetry failed = true) as Hen by (by vm_compute).
  split; [exact Hen|].
  pose proof (view_transitions lower failed ClickRetry Hen) as H.
  change (render failed) with (ErrorView "HTTP error! status: 500") in H.
  exact (proj2 H).
Defined.

Lemma page_out_of_range_empty_witness :
  totalPages (setCurrentPage 4 loaded) < currentPage (setCurrentPage 4 loaded)
  ∧ currentUsers (setCurrentPage 4 loaded) = [].
Proof.
  assert (totalPages (setCurrentPage 4 loaded)
          < currentPage (setCurrentPage 4 loaded)) as Hlate by (by vm_compute).
  split; [exact Hlate|].
  apply (page_out_of_range_empty (setCurrentPage 4 loaded) (or_intror Hlate)).
Defined.

Lemma no_results_or_pagination_witness :
  reachable lower emptyResult
  ∧ tableShown emptyResult = true
  ∧ noResultsShown emptyResult = true
  ∧ paginationShown emptyResult = false.
Proof.
  assert (reachable lower emptyResult) as Hr
    by (apply (reachable_dispatch lower); [apply reachable_loadedState | by vm_compute]).
  assert (tableShown emptyResult = true) as Ht by (by vm_compute).
  split; [exact Hr|]. split; [exact Ht|].
  destruct (no_results_or_pagination lower emptyResult Hr Ht) as (Heq & _ & _).
  split; [rewrite Heq|]; by vm_compute.
Defined.

Lemma showing_range_accurate_witness :
  reachable lower page3
  ∧ paginationShown page3 = true
  ∧ showingFrom page3 = 11 ∧ showingTo page3 = 12
  ∧ Z.of_nat (length (currentUsers page3))
      = showingTo page3 - showingFrom page3 + 1.
Proof.
  assert (paginationShown page3 = true) as Hshown by (by vm_compute).
  split; [apply reachable_page3State|]. split; [exact Hshown|].
  split; [by vm_compute|]. split; [by vm_compute|].
  apply (showing_range_accurate lower page3 reachable_page3State Hshown).
Defined.

Lemma buttons_disabled_at_ends_witness :
  reachable lower page3
  ∧ paginationShown page3 = true
  ∧ nextDisabled page3 = true
  ∧ previousDisabled page3 = false.
Proof.
  assert (paginationShown page3 = true) as Hshown by (by vm_compute).
  split; [apply reachable_page3State|]. split; [exact Hshown|].
  destruct (buttons_disabled_at_ends lower page3 reachable_page3State Hshown)
    as (_ & Hnext & _).
  split; [apply Hnext|]; by vm_compute.
Defined.

Lemma next_previous_round_trip_witness :
  1 ≤ currentPage loaded < totalPages loaded
  ∧ dispatch lower ClickPrevious (dispatch lower ClickNext loaded) = loaded.
Proof.
  assert (1 ≤ currentPage loaded < totalPages loaded) as Hp
    by (by vm_compute).
  split; [exact Hp|].
  apply (proj1 (next_previous_round_trip lower loaded) Hp).
Defined.

Lemma search_result_and_frame_witness :
  reachable lower page3
  ∧ "A"%string ≠ searchTerm page3
  ∧ selectedUsers (dispatch lower (SearchInput "A") page3) = [11]
  ∧ map id (currentUsers (dispatch lower (SearchInput "A") page3)) = [2; 7; 8; 9; 10].
Proof.
  assert ("A"%string ≠ searchTerm page3) as Hne by (by vm_compute).
  split; [apply reachable_page3State|]. split; [exact Hne|].
  pose proof (search_result_and_frame lower page3 "A" reachable_page3State) as H.
  cbv zeta in H. destruct H as (_ & _ & Hsel & _ & Hrows).
  split; [rewrite Hsel | rewrite (Hrows Hne)]; by vm_compute.
Defined.

Lemma search_narrows_witness :
  reachable lower searched
  ∧ JsString.isSubstring (lower (searchTerm searched)) (lower "Ava")
  ∧ map id (filteredUsers searched) = [2; 7; 8; 9; 10; 11]
  ∧ map id (filteredUsers (dispatch lower (SearchInput "Ava") searched)) = [10]
  ∧ sublist (filteredUsers (dispatch lower (SearchInput "Ava") searched))
            (filteredUsers searched).
Proof.
  assert (JsString.isSubstring (lower (searchTerm searched)) (lower "Ava")) as Hsub
    by (by exists ""%string, "va"%string).
  split; [apply reachable_searchedState|]. split; [exact Hsub|].
  split; [by vm_compute|]. split; [by vm_compute|].
  apply (search_narrows lower searched "Ava" reachable_searchedState Hsub).
Defined.

Lemma row_checkbox_display_witness :
  let user := sampleUser 3 "Bob" "Stone" "bs@corp.io" "bobby" in
  user ∈ currentUsers pageOneSelected
  ∧ isSelected pageOneSelected user = true
  ∧ isAllSelected pageOneSelected = true
  ∧ isAllSelected (dispatch lower (RowCheckbox (id user)) pageOneSelected) = false.
Proof.
  cbv zeta.
  assert (sampleUser 3 "Bob" "Stone" "bs@corp.io" "bobby"
            ∈ currentUsers pageOneSelected) as Hrow
    by (apply (bool_decide_unpack _); by vm_compute).
  assert (isSelected pageOneSelected
            (sampleUser 3 "Bob" "Stone" "bs@corp.io" "bobby") = true) as Ht
    by (by vm_compute).
  split; [exact Hrow|]. split; [exact Ht|]. split; [by vm_compute|].
  exact (proj2 (proj2 (row_checkbox_display lower pageOneSelected
                         (sampleUser 3 "Bob" "Stone" "bs@corp.io" "bobby")))
           Hrow Ht).
Defined.

Lemma selection_within_base_witness :
  reachable lower pageOneSelected
  ∧ selectedUsers pageOneSelected = [7; 1; 2; 3; 4; 5]
  ∧ selectedCount pageOneSelected
      ≤ Z.of_nat (length (users pageOneSelected)).
Proof.
  assert (reachable lower pageOneSelected) as Hr
    by (apply (reachable_run lower _ _ reachable_loadedState); by vm_compute).
  split; [exact Hr|]. split; [by vm_compute|].
  apply (selection_within_base lower pageOneSelected Hr).
Defined.

Lemma select_all_appends_witness :
  reachable lower otherPage
  ∧ selectedUsers otherPage = [7]
  ∧ ∃ added,
      selectedUsers (dispatch lower (SelectAllCheckbox true) otherPage)
        = selectedUsers otherPage ++ added
      ∧ (length added ≤ 5)%nat.
Proof.
  assert (reachable lower otherPage) as Hr
    by (apply (reachable_run lower _ _ reachable_loadedState); by vm_compute).
  split; [exact Hr|]. split; [by vm_compute|].
  destruct (select_all_appends lower otherPage Hr) as (added & Heq & _ & _ & Hlen).
  exists added. split; [exact Heq | exact Hlen].
Defined.

Lemma row_checkbox_count_witness :
  reachable lower page3
  ∧ selectedCount page3 = 1
  ∧ selectedCount (dispatch lower (RowCheckbox 11) page3) = 0
  ∧ selectedCount (dispatch lower (RowCheckbox 12) page3) = 2.
Proof.
  split; [apply reachable_page3State|]. split; [by vm_compute|].
  split.
  - rewrite (row_checkbox_count lower page3 11 reachable_page3State). by vm_compute.
  - rewrite (row_checkbox_count lower page3 12 reachable_page3State). by vm_compute.
Defined.
